(** * Verification of the token-resale routes (src/backend/routes/llmRoutes.js)

    Shallow embedding of the three routes of [llmRoutes.js] that touch the
    quota ledger: provider inference ([getProviderFromModel]), the provider
    handlers and their usage metering, [POST /buy-tokens] and [POST /chat].

    Modelling choices:
    - JS numbers are modelled exactly: currency amounts and prices as [Q],
      token counters as [Z]. Floating-point rounding is not modelled: the
      token count [Math.floor(amount / price)], the charge and the balance
      updates of a purchase may differ from the float64 results at
      rounding boundaries, so the properties stated here about purchases
      do not rely on those exact values (token counts are integers in both).
    - Strings are Rocq [string]s (8-bit characters); [s.length] is
      [String.length], which agrees with JS for ASCII text.
    - Mongoose ids are strings; [x._id.toString() === id] is string equality.
    - The database is a list of user documents. [User.findById] returns a
      copy of the first document with that id; [doc.save()] writes the
      in-memory copy back over the stored document with the same id.
    - The upstream model call is external: its result is an input of the
      model ([upstream_reply]); the credential decryption it receives is
      external as well and is not modelled. *)

From Stdlib Require Import ZArith QArith Qround String Ascii List Bool Lia.
From Stdlib Require Import Lqa.
Import ListNotations.

Local Open Scope Z_scope.

(* ------------------------------------------------------------------ *)
(** ** String helpers: [toLowerCase], [includes], [startsWith] *)

Module Str.

(** [String.prototype.toLowerCase] on one character: 'A'..'Z' are mapped
    to 'a'..'z'. (Non-ASCII characters never lower-case to an ASCII letter,
    so leaving them unchanged does not affect the substring tests below.) *)
Definition lower_char (c : ascii) : ascii :=
  let n := nat_of_ascii c in
  if (Nat.leb 65 n && Nat.leb n 90)%bool then ascii_of_nat (n + 32) else c.

Fixpoint toLowerCase (s : string) : string :=
  match s with
  | EmptyString => EmptyString
  | String c s' => String (lower_char c) (toLowerCase s')
  end.

(** [s.startsWith(p)] *)
Definition startsWith (s p : string) : bool := String.prefix p s.

(** [s.includes(p)]: [p] occurs at some position of [s]. *)
Fixpoint includes (s p : string) : bool :=
  if String.prefix p s then true
  else match s with
       | EmptyString => false
       | String _ s' => includes s' p
       end.

End Str.

(* ------------------------------------------------------------------ *)
(** ** Provider inference (lines 11-17) *)

Inductive provider := openai | anthropic | gemini.

(** [getProviderFromModel]: [None] is the thrown
    "Unable to determine provider" error. *)
Definition getProviderFromModel (modelName : string) : option provider :=
  let lower := Str.toLowerCase modelName in
  if (Str.includes lower "gpt" || Str.startsWith lower "gpt")%bool then Some openai
  else if Str.includes lower "claude" then Some anthropic
  else if Str.includes lower "gemini" then Some gemini
  else None.

(** Case-insensitive occurrence of a lower-case pattern, stated without
    [includes]: some slice of the name lower-cases to the pattern. *)
Definition ci_contains (s p : string) : Prop :=
  exists a m b, s = (a ++ m ++ b)%string /\ Str.toLowerCase m = p.

(* ------------------------------------------------------------------ *)
(** ** Documents of the [User] model *)

(** An entry of [user.api_keys] (an owned key). *)
Record api_key := mkApiKey {
  k_id : string;
  k_name : string;
  k_key : string;           (* encrypted credential *)
  available : Z
}.

(** An entry of [user.temporaryTokens] (a quota bundle). [apiKeyName] is
    [None] when the field is absent. *)
Record temp_token := mkTempToken {
  t_id : string;
  t_name : string;
  t_apiKey : string;
  tokensRemaining : Z;
  expiresAt : Z;
  pricePerToken : Q;
  sellerId : string;
  originalApiKeyId : string;
  apiKeyName : option string
}.

Record user := mkUser {
  u_id : string;
  amount : Q;
  api_keys : list api_key;
  temporaryTokens : list temp_token
}.

Definition db := list user.

(** Field assignments on the in-memory documents. *)
Definition set_amount (u : user) (q : Q) : user :=
  mkUser (u_id u) q (api_keys u) (temporaryTokens u).
Definition set_api_keys (u : user) (l : list api_key) : user :=
  mkUser (u_id u) (amount u) l (temporaryTokens u).
Definition set_tokens (u : user) (l : list temp_token) : user :=
  mkUser (u_id u) (amount u) (api_keys u) l.
Definition set_remaining (t : temp_token) (z : Z) : temp_token :=
  mkTempToken (t_id t) (t_name t) (t_apiKey t) z (expiresAt t) (pricePerToken t)
    (sellerId t) (originalApiKeyId t) (apiKeyName t).
Definition set_available (k : api_key) (z : Z) : api_key :=
  mkApiKey (k_id k) (k_name k) (k_key k) z.

(** [User.findById(id)]: a fresh copy of the stored document. *)
Definition findById (d : db) (id : string) : option user :=
  find (fun u => String.eqb (u_id u) id) d.

(** [doc.save()]: the in-memory copy replaces the stored document.
    Mongoose writes only the modified paths and guards positional array
    updates with the loaded version key, bumped when an array is
    reassigned; this overwrite agrees with it when the saves of one
    document do not race with such a reassignment. *)
Definition save (u : user) (d : db) : db :=
  map (fun v => if String.eqb (u_id v) (u_id u) then u else v) d.

(** Mutating, in place, the element [arr.find(p)] of an array. *)
Fixpoint update_first {A} (p : A -> bool) (f : A -> A) (l : list A) : list A :=
  match l with
  | [] => []
  | x :: l' => if p x then f x :: l' else x :: update_first p f l'
  end.

(** The JS expression [a || b] on an optional string field. *)
Definition js_or (a : option string) (b : string) : string :=
  match a with
  | Some s => if String.eqb s "" then b else s
  | None => b
  end.

(* ------------------------------------------------------------------ *)
(** ** [POST /buy-tokens] (lines 78-186) *)

Inductive buy_error :=
  | BuyMissingFields      (* 400 Seller ID, token ID, and valid numeric amount are required *)
  | BuyerNotFound         (* 404 *)
  | InsufficientBalance   (* 400 Insufficient balance *)
  | SellerNotFound        (* 404 *)
  | TokenNotFound         (* 404 *)
  | AmountTooSmall        (* 400 Amount too small to purchase any tokens *)
  | NotEnoughTokens.      (* 400 Seller does not have enough tokens available *)

Record buy_ok := mkBuyOk {
  tokensReceived : Z;
  amountSpent : Q;
  remainingBalance : Q;
  purchasedToken : temp_token
}.

Definition tok_id_is (id : string) (t : temp_token) : bool := String.eqb (t_id t) id.

(** The buyer-side merge key of line 131-133. *)
Definition same_listing (name sid : string) (t : temp_token) : bool :=
  (String.eqb (t_name t) name && String.eqb (sellerId t) sid)%bool.

(** The request comes from [reqUser] with body [sellerIdReq], [tokenIdReq],
    [amt]; [newId] is the [_id] Mongoose gives a pushed sub-document. *)
Definition buy_tokens (d : db) (reqUser sellerIdReq tokenIdReq : string) (amt : Q)
    (newId : string) : (buy_error + buy_ok) * db :=
  if (String.eqb sellerIdReq "" || String.eqb tokenIdReq "" || Qle_bool amt 0)%bool
  then (inl BuyMissingFields, d) else
  match findById d reqUser with
  | None => (inl BuyerNotFound, d)
  | Some buyer =>
  (* buyer.amount < amount *)
  if negb (Qle_bool amt (amount buyer)) then (inl InsufficientBalance, d) else
  match findById d sellerIdReq with
  | None => (inl SellerNotFound, d)
  | Some seller =>
  match find (tok_id_is tokenIdReq) (temporaryTokens seller) with
  | None => (inl TokenNotFound, d)
  | Some token =>
  (* amount / 0 is Infinity: it passes [tokensToReceive <= 0] and fails
     [token.tokensRemaining < tokensToReceive] *)
  if Qeq_bool (pricePerToken token) 0 then (inl NotEnoughTokens, d) else
  let tokensToReceive := Qfloor (amt / pricePerToken token) in
  if tokensToReceive <=? 0 then (inl AmountTooSmall, d) else
  if tokensRemaining token <? tokensToReceive then (inl NotEnoughTokens, d) else
  let actualAmount := (inject_Z tokensToReceive * pricePerToken token)%Q in
  let buyer1 := set_amount buyer (amount buyer - actualAmount)%Q in
  let seller1 := set_amount seller (amount seller + actualAmount)%Q in
  let token1 := set_remaining token (tokensRemaining token - tokensToReceive) in
  let seller2 := set_tokens seller1
      (update_first (tok_id_is tokenIdReq) (fun _ => token1) (temporaryTokens seller1)) in
  let (buyer2, purchased) :=
    match find (same_listing (t_name token1) sellerIdReq) (temporaryTokens buyer1) with
    | Some existing =>
        let merged := set_remaining existing (tokensRemaining existing + tokensToReceive) in
        (set_tokens buyer1
           (update_first (same_listing (t_name token1) sellerIdReq) (fun _ => merged)
              (temporaryTokens buyer1)), merged)
    | None =>
        let newToken := mkTempToken newId (t_name token1) (t_apiKey token1)
            tokensToReceive (expiresAt token1) (pricePerToken token1) (u_id seller)
            (originalApiKeyId token1) None in
        (set_tokens buyer1 (temporaryTokens buyer1 ++ [newToken]), newToken)
    end in
  let seller3 :=
    if tokensRemaining token1 <=? 0
    then set_tokens seller2
           (filter (fun t => negb (tok_id_is tokenIdReq t)) (temporaryTokens seller2))
    else seller2 in
  let d1 := save buyer2 d in
  let d2 := save seller3 d1 in
  (inr (mkBuyOk tokensToReceive actualAmount (amount buyer2) purchased), d2)
  end end end.

(* ------------------------------------------------------------------ *)
(** ** Provider handlers (lines 280-356) *)

(** What the upstream SDK call returned: the completion text and, for the
    OpenAI API only, the reported [usage] counts. *)
Record upstream_reply := mkReply {
  r_text : string;
  r_prompt_tokens : Z;
  r_completion_tokens : Z;
  r_total_tokens : Z
}.

Record usage := mkUsage {
  promptTokens : Z;
  completionTokens : Z;
  totalTokens : Z
}.

Record response := mkResponse {
  text : string;
  resp_usage : usage
}.

(** [Math.ceil(n / 4)] *)
Definition ceil_div4 (n : nat) : Z := Qceiling (inject_Z (Z.of_nat n) / 4).

Definition handleOpenAIRequest (message : string) (r : upstream_reply) : response :=
  mkResponse (r_text r)
    (mkUsage (r_prompt_tokens r) (r_completion_tokens r) (r_total_tokens r)).

Definition handleAnthropicRequest (message : string) (r : upstream_reply) : response :=
  let promptTokens := ceil_div4 (String.length message) in
  let completionTokens := ceil_div4 (String.length (r_text r)) in
  mkResponse (r_text r) (mkUsage promptTokens completionTokens (promptTokens + completionTokens)).

Definition handleGeminiRequest (message : string) (r : upstream_reply) : response :=
  let txt := r_text r in
  let promptTokens := ceil_div4 (String.length message) in
  let completionTokens := ceil_div4 (String.length txt) in
  mkResponse txt (mkUsage promptTokens completionTokens (promptTokens + completionTokens)).

Definition handleProviderRequest (p : provider) (message : string) (r : upstream_reply)
    : response :=
  match p with
  | openai => handleOpenAIRequest message r
  | anthropic => handleAnthropicRequest message r
  | gemini => handleGeminiRequest message r
  end.

(* ------------------------------------------------------------------ *)
(** ** [POST /chat] (lines 189-277) *)

Inductive chat_error :=
  | ChatMissingFields     (* 400 *)
  | UserNotFound          (* 404 *)
  | TempKeyNotFound       (* 404 Temporary API key not found *)
  | NoTokensLeft          (* 400 Insufficient tokens. Please purchase more. *)
  | ChatSellerNotFound    (* 404 Seller not found *)
  | OriginalKeyNotFound   (* 404 Original API key not found *)
  | UserKeyNotFound       (* 404 API key not found *)
  | InvalidKeyType        (* 400 *)
  | InsufficientTokens    (* 400 Insufficient tokens for this request. *)
  | InsufficientAvailable (* 400 Insufficient available tokens for this request. *)
  | ServerError.          (* 500: unknown provider or upstream failure *)

Record chat_ok := mkChatOk {
  chat_text : string;
  chat_usage : usage;
  remainingTokens : Z
}.

(** The quota source found by the handler, as read before the upstream
    call. *)
Inductive source :=
  | TempSource (t : temp_token)
  | UserSource (k : api_key).

(** The handler's local state at the upstream [await]: the user document it
    loaded, the quota source inside it, and the inferred provider. *)
Record prepared := mkPrepared {
  p_user : user;
  p_keyId : string;
  p_source : source;
  p_provider : provider;
  p_apiKey : string
}.

Definition key_id_is (id : string) (k : api_key) : bool := String.eqb (k_id k) id.

(** Lines 191-225 and 248-252: everything before [handleProviderRequest]. *)
Definition chat_prepare (d : db) (reqUser message keyType keyId modelId : string)
    : chat_error + prepared :=
  if (String.eqb message "" || String.eqb keyType "" || String.eqb keyId ""
      || String.eqb modelId "")%bool then inl ChatMissingFields else
  match findById d reqUser with
  | None => inl UserNotFound
  | Some u =>
  if String.eqb keyType "temp" then
    match find (tok_id_is keyId) (temporaryTokens u) with
    | None => inl TempKeyNotFound
    | Some tempKey =>
    if tokensRemaining tempKey <=? 0 then inl NoTokensLeft else
    match findById d (sellerId tempKey) with
    | None => inl ChatSellerNotFound
    | Some seller =>
    match find (key_id_is (originalApiKeyId tempKey)) (api_keys seller) with
    | None => inl OriginalKeyNotFound
    | Some originalApiKey =>
    match getProviderFromModel (js_or (apiKeyName tempKey) (k_name originalApiKey)) with
    | None => inl ServerError
    | Some p => inr (mkPrepared u keyId (TempSource tempKey) p (k_key originalApiKey))
    end end end end
  else if String.eqb keyType "user" then
    match find (key_id_is keyId) (api_keys u) with
    | None => inl UserKeyNotFound
    | Some userKey =>
    match getProviderFromModel (k_name userKey) with
    | None => inl ServerError
    | Some p => inr (mkPrepared u keyId (UserSource userKey) p (k_key userKey))
    end end
  else inl InvalidKeyType
  end.

(** Lines 226-245 and 254-268: metering, debit and [user.save()], after the
    upstream call returned [reply] ([None]: the call threw). [d] is the
    database at the moment of the save. *)
Definition chat_finish (d : db) (p : prepared) (message : string)
    (reply : option upstream_reply) : (chat_error + chat_ok) * db :=
  match reply with
  | None => (inl ServerError, d)
  | Some r =>
  let resp := handleProviderRequest (p_provider p) message r in
  let tokensUsed := totalTokens (resp_usage resp) in
  let u := p_user p in
  match p_source p with
  | TempSource tempKey =>
    if tokensUsed >? tokensRemaining tempKey then (inl InsufficientTokens, d) else
    let tempKey1 := set_remaining tempKey (tokensRemaining tempKey - tokensUsed) in
    let u1 := set_tokens u
        (update_first (tok_id_is (p_keyId p)) (fun _ => tempKey1) (temporaryTokens u)) in
    let u2 :=
      if tokensRemaining tempKey1 <=? 0
      then set_tokens u1 (filter (fun k => negb (tok_id_is (p_keyId p) k)) (temporaryTokens u1))
      else u1 in
    (inr (mkChatOk (text resp) (resp_usage resp) (tokensRemaining tempKey1)), save u2 d)
  | UserSource userKey =>
    if available userKey <? tokensUsed then (inl InsufficientAvailable, d) else
    let userKey1 := set_available userKey (available userKey - tokensUsed) in
    let u1 := set_api_keys u
        (update_first (key_id_is (p_keyId p)) (fun _ => userKey1) (api_keys u)) in
    (inr (mkChatOk (text resp) (resp_usage resp) (available userKey1)), save u1 d)
  end
  end.

(** One chat request served on its own: nothing runs between the read of
    the user document and its save. *)
Definition chat (d : db) (reqUser message keyType keyId modelId : string)
    (reply : option upstream_reply) : (chat_error + chat_ok) * db :=
  match chat_prepare d reqUser message keyType keyId modelId with
  | inl e => (inl e, d)
  | inr p => chat_finish d p message reply
  end.

(** Two identical requests handled concurrently: both load the user document
    and reach the upstream [await] before either resumes; request 1 resumes
    and saves first, then request 2. *)
Definition chat_concurrent (d : db) (reqUser message keyType keyId modelId : string)
    (reply1 reply2 : option upstream_reply)
    : (chat_error + chat_ok) * (chat_error + chat_ok) * db :=
  match chat_prepare d reqUser message keyType keyId modelId with
  | inl e => (inl e, inl e, d)
  | inr p1 =>
    match chat_prepare d reqUser message keyType keyId modelId with
    | inl e => (inl e, inl e, d)
    | inr p2 =>
      let (res1, d1) := chat_finish d p1 message reply1 in
      let (res2, d2) := chat_finish d1 p2 message reply2 in
      (res1, res2, d2)
    end
  end.

(** Changing the [expiresAt] of bundle [tid] of user [uid], everything else
    kept: used to state that the chat route does not depend on it. *)
Definition set_expires (t : temp_token) (e : Z) : temp_token :=
  mkTempToken (t_id t) (t_name t) (t_apiKey t) (tokensRemaining t) e (pricePerToken t)
    (sellerId t) (originalApiKeyId t) (apiKeyName t).

Definition expire_tok (tid : string) (e : Z) (t : temp_token) : temp_token :=
  if tok_id_is tid t then set_expires t e else t.

Definition expire_user (uid tid : string) (e : Z) (u : user) : user :=
  if String.eqb (u_id u) uid then set_tokens u (map (expire_tok tid e) (temporaryTokens u))
  else u.

Definition with_expiry (d : db) (uid tid : string) (e : Z) : db :=
  map (expire_user uid tid e) d.

(** The counter a request is metered against, and the 400 rejection the
    route returns when the metered usage exceeds it (lines 228-230 and
    257-259). *)
Definition quota_of (s : source) : Z :=
  match s with TempSource t => tokensRemaining t | UserSource k => available k end.

Definition overdraft_error (s : source) : chat_error :=
  match s with TempSource _ => InsufficientTokens | UserSource _ => InsufficientAvailable end.

(** The rejection, if any, issued before the upstream provider call. *)
Definition prepare_error (r : chat_error + prepared) : option chat_error :=
  match r with inl e => Some e | inr _ => None end.

(* ------------------------------------------------------------------ *)
(** ** [GET /available-models] (lines 20-76) *)

Record model_info := mkModel {
  model_id : string;
  model_name : string;
  model_description : string
}.

(** The three [switch] cases; its [default] case ("Unsupported API
    provider") is unreachable, [getProviderFromModel] throws instead. *)
Definition models_of (p : provider) : list model_info :=
  match p with
  | openai =>
      [mkModel "gpt-4" "gpt-4" "OpenAI GPT-4";
       mkModel "gpt-3.5-turbo" "gpt-3.5-turbo" "OpenAI GPT-3.5 Turbo"]
  | anthropic =>
      [mkModel "claude-3-opus-20240229" "claude-3-opus-20240229" "Claude 3 Opus";
       mkModel "claude-3-sonnet-20240229" "claude-3-sonnet-20240229" "Claude 3 Sonnet";
       mkModel "claude-3-haiku-20240307" "claude-3-haiku-20240307" "Claude 3 Haiku"]
  | gemini =>
      [mkModel "gemini-1.5-pro" "gemini-1.5-pro" "Gemini 1.5 Pro";
       mkModel "gemini-2.0-flash" "gemini-2.0-flash" "Gemini 2.0 Flash"]
  end.

Inductive models_error :=
  | ModelsMissingFields   (* 400 Key type and ID are required *)
  | ModelsTempKeyNotFound (* 404 Temporary API key not found *)
  | ModelsKeyNotFound     (* 404 API key not found *)
  | ModelsInvalidKeyType  (* 400 Invalid key type *)
  | ModelsServerError.    (* 500: unknown provider, or [user] is null *)

(** The handler does not test [user] for null: reading a key list of a
    missing document throws, which the [catch] turns into a 500. *)
Definition available_models (d : db) (reqUser keyType keyId : string)
    : models_error + list model_info :=
  if (String.eqb keyType "" || String.eqb keyId "")%bool then inl ModelsMissingFields else
  let user := findById d reqUser in
  if String.eqb keyType "temp" then
    match user with
    | None => inl ModelsServerError
    | Some u =>
    match find (tok_id_is keyId) (temporaryTokens u) with
    | None => inl ModelsTempKeyNotFound
    | Some tempKey =>
    match getProviderFromModel (t_name tempKey) with
    | None => inl ModelsServerError
    | Some p => inr (models_of p)
    end end end
  else if String.eqb keyType "user" then
    match user with
    | None => inl ModelsServerError
    | Some u =>
    match find (key_id_is keyId) (api_keys u) with
    | None => inl ModelsKeyNotFound
    | Some userKey =>
    match getProviderFromModel (k_name userKey) with
    | None => inl ModelsServerError
    | Some p => inr (models_of p)
    end end end
  else inl ModelsInvalidKeyType.

(* ------------------------------------------------------------------ *)
(** ** Measures used to state invariants *)

(** Sum of [tokensRemaining] over the bundles of a document, and over the
    whole database. *)
Definition bundle_sum (l : list temp_token) : Z :=
  fold_right (fun t acc => tokensRemaining t + acc) 0 l.

Definition tokens_of (u : user) : Z := bundle_sum (temporaryTokens u).

Definition total_tokens (d : db) : Z :=
  fold_right (fun u acc => tokens_of u + acc) 0 d.

(* ------------------------------------------------------------------ *)
(** ** Sample documents *)

Module Fixtures.

Definition gpt_key : api_key := mkApiKey "K1" "gpt-4 key" "enc:K1" 1000.

(** User "U" lists 50 tokens of its own key at price 1; the listing carries
    its owner as [sellerId]. *)
Definition self_listing : temp_token :=
  mkTempToken "L1" "gpt-4 quota" "enc:K1" 50 0 1 "U" "K1" None.
Definition self_db : db := [mkUser "U" 100 [gpt_key] [self_listing]].

(** Seller "S" lists 15 tokens at price 1; buyer "B" has a balance of 10. *)
Definition listing_L2 : temp_token :=
  mkTempToken "L2" "gpt-4 quota" "enc:K1" 15 0 1 "S" "K1" None.
Definition seller_S : user := mkUser "S" 0 [gpt_key] [listing_L2].
Definition buyer_B : user := mkUser "B" 10 [] [].
Definition market_db : db := [buyer_B; seller_S].

(** Buyer "C" holds a purchased bundle "T" of 10 tokens from "S", with an
    expiry time of 0. *)
Definition bundle_T : temp_token :=
  mkTempToken "T" "gpt-4 quota" "enc:K1" 10 0 1 "S" "K1" None.
Definition holder_db : db := [mkUser "C" 0 [] [bundle_T]; seller_S].

(** An OpenAI reply reporting a total of [n] tokens. *)
Definition reply_of (n : Z) : upstream_reply := mkReply "ok" 1 (n - 1) n.

(** User "D" holds bundle "Q" of seller "S" whose name names no model
    family; the seller's key "K1" is named "gpt-4 key". *)
Definition plain_bundle : temp_token :=
  mkTempToken "Q" "bulk quota" "enc:K1" 10 0 1 "S" "K1" None.
Definition plain_db : db := [mkUser "D" 0 [] [plain_bundle]; seller_S].

End Fixtures.

(* ================================================================== *)
(** * Properties *)

(* ------------------------------------------------------------------ *)
(** ** Provider inference *)

Module StrFacts.

Lemma prefix_iff (p s : string) :
  String.prefix p s = true <-> exists b, s = (p ++ b)%string.
Proof.
  revert p; induction s as [|c' s IH]; intros p; destruct p as [|c p]; simpl.
  - split; [intros _; now exists ""%string | reflexivity].
  - split; [discriminate | intros [b Hb]; discriminate].
  - split; [intros _; now exists (String c' s) | reflexivity].
  - destruct (ascii_dec c c') as [->|Hne].
    + rewrite IH. split; intros [b Hb]; exists b; [now rewrite Hb | now injection Hb].
    + split; [discriminate | intros [b Hb]; injection Hb; intros _ ?; congruence].
Qed.

Lemma includes_iff (s p : string) :
  Str.includes s p = true <-> exists a b, s = (a ++ p ++ b)%string.
Proof.
  induction s as [|c s IH].
  - change (Str.includes "" p) with (if String.prefix p "" then true else false).
    destruct (String.prefix p "") eqn:Hp.
    + split; [intros _ | reflexivity].
      apply prefix_iff in Hp as [b Hb]. exists ""%string, b. exact Hb.
    + split; [discriminate|]. intros [a [b Hab]].
      destruct a; [|discriminate]. simpl in Hab.
      assert (String.prefix p "" = true) by (apply prefix_iff; now exists b).
      congruence.
  - change (Str.includes (String c s) p)
      with (if String.prefix p (String c s) then true else Str.includes s p).
    destruct (String.prefix p (String c s)) eqn:Hp.
    + split; [intros _ | reflexivity].
      apply prefix_iff in Hp as [b Hb]. exists ""%string, b. exact Hb.
    + rewrite IH. split.
      * intros [a [b Hab]]. exists (String c a), b. now rewrite Hab.
      * intros [a [b Hab]]. destruct a as [|c' a].
        -- simpl in Hab.
           assert (String.prefix p (String c s) = true) by (apply prefix_iff; now exists b).
           congruence.
        -- injection Hab as -> Hs. now exists a, b.
Qed.

Lemma startsWith_includes (s p : string) :
  Str.startsWith s p = true -> Str.includes s p = true.
Proof.
  unfold Str.startsWith. intros H. apply includes_iff.
  apply prefix_iff in H as [b Hb]. now exists ""%string, b.
Qed.

Lemma toLowerCase_app (a b : string) :
  Str.toLowerCase (a ++ b) = (Str.toLowerCase a ++ Str.toLowerCase b)%string.
Proof. induction a as [|c a IH]; simpl; congruence. Qed.

Lemma toLowerCase_split (s x y : string) :
  Str.toLowerCase s = (x ++ y)%string ->
  exists s1 s2, s = (s1 ++ s2)%string /\ Str.toLowerCase s1 = x /\ Str.toLowerCase s2 = y.
Proof.
  revert s; induction x as [|c x IH]; intros s H.
  - exists ""%string, s. simpl in *. auto.
  - destruct s as [|c' s]; simpl in H; [discriminate|].
    injection H as Hc Hs. destruct (IH s Hs) as (s1 & s2 & -> & H1 & H2).
    exists (String c' s1), s2. simpl. rewrite Hc, H1. auto.
Qed.

Lemma includes_lower_iff (s p : string) :
  Str.includes (Str.toLowerCase s) p = true <-> ci_contains s p.
Proof.
  rewrite includes_iff. split.
  - intros (a & b & H).
    destruct (toLowerCase_split s a (p ++ b) H) as (s1 & r & -> & H1 & Hr).
    destruct (toLowerCase_split r p b Hr) as (m & s3 & -> & Hm & _).
    now exists s1, m, s3.
  - intros (a & m & b & -> & Hm).
    exists (Str.toLowerCase a), (Str.toLowerCase b).
    now rewrite !toLowerCase_app, Hm.
Qed.

End StrFacts.

Lemma gpt_test_includes (s : string) :
  (Str.includes (Str.toLowerCase s) "gpt" || Str.startsWith (Str.toLowerCase s) "gpt")%bool
  = Str.includes (Str.toLowerCase s) "gpt".
Proof.
  destruct (Str.includes (Str.toLowerCase s) "gpt") eqn:H; [reflexivity|].
  destruct (Str.startsWith (Str.toLowerCase s) "gpt") eqn:H'; [|reflexivity].
  apply StrFacts.startsWith_includes in H'. congruence.
Qed.

Lemma ci_contains_dec_bool (s p : string) :
  Str.includes (Str.toLowerCase s) p = false <-> ~ ci_contains s p.
Proof.
  rewrite <- StrFacts.includes_lower_iff.
  destruct (Str.includes (Str.toLowerCase s) p); intuition congruence.
Qed.

(** C2: provider inference is the case-insensitive, first-match substring
    rule "gpt" -> OpenAI, then "claude" -> Anthropic, then "gemini" ->
    Gemini, anything else the UnknownProvider error; with the four
    examples of the spec. *)
Theorem getProviderFromModel_first_match (s : string) :
  (getProviderFromModel s = Some openai <-> ci_contains s "gpt") /\
  (getProviderFromModel s = Some anthropic <->
     ~ ci_contains s "gpt" /\ ci_contains s "claude") /\
  (getProviderFromModel s = Some gemini <->
     ~ ci_contains s "gpt" /\ ~ ci_contains s "claude" /\ ci_contains s "gemini") /\
  (getProviderFromModel s = None <->
     ~ ci_contains s "gpt" /\ ~ ci_contains s "claude" /\ ~ ci_contains s "gemini") /\
  getProviderFromModel "gpt-4" = Some openai /\
  getProviderFromModel "claude-3-opus-20240229" = Some anthropic /\
  getProviderFromModel "gemini-1.5-pro" = Some gemini /\
  getProviderFromModel "llama-3" = None.
Proof.
  assert (Hg := ci_contains_dec_bool s "gpt").
  assert (Hc := ci_contains_dec_bool s "claude").
  assert (Hm := ci_contains_dec_bool s "gemini").
  rewrite <- !StrFacts.includes_lower_iff.
  unfold getProviderFromModel; cbv zeta; rewrite gpt_test_includes.
  destruct (Str.includes (Str.toLowerCase s) "gpt");
  destruct (Str.includes (Str.toLowerCase s) "claude");
  destruct (Str.includes (Str.toLowerCase s) "gemini");
  repeat split; try reflexivity; intuition (try congruence; try discriminate).
Qed.

(* ------------------------------------------------------------------ *)
(** ** Usage metering *)

(** [Math.ceil(n / 4)] is the integer ceiling [(n + 3) / 4]. *)
Lemma ceil_div4_eq (n : nat) : ceil_div4 n = (Z.of_nat n + 3) / 4.
Proof.
  unfold ceil_div4, Qceiling, Qfloor, inject_Z, Qdiv, Qinv, Qmult, Qopp; simpl.
  rewrite Z.mul_1_r. Z.div_mod_to_equations. lia.
Qed.

Lemma ceil_div4_bounds (n : nat) :
  4 * (ceil_div4 n - 1) < Z.of_nat n <= 4 * ceil_div4 n.
Proof. rewrite ceil_div4_eq. Z.div_mod_to_equations. lia. Qed.

(** C3: for the Anthropic and Gemini handlers the usage is estimated as
    [promptTokens = ceil(|message| / 4)], [completionTokens =
    ceil(|response| / 4)] and [totalTokens] their sum; a 17-character
    message with a 9-character response gives 5, 3 and 8. *)
Theorem estimated_usage (message : string) (r : upstream_reply) :
  (forall p, p = anthropic \/ p = gemini ->
    let u := resp_usage (handleProviderRequest p message r) in
    promptTokens u = (Z.of_nat (String.length message) + 3) / 4 /\
    completionTokens u = (Z.of_nat (String.length (r_text r)) + 3) / 4 /\
    totalTokens u = promptTokens u + completionTokens u /\
    4 * (promptTokens u - 1) < Z.of_nat (String.length message) <= 4 * promptTokens u /\
    4 * (completionTokens u - 1) < Z.of_nat (String.length (r_text r))
      <= 4 * completionTokens u) /\
  (forall p, p = anthropic \/ p = gemini ->
    String.length message = 17%nat -> String.length (r_text r) = 9%nat ->
    resp_usage (handleProviderRequest p message r) = mkUsage 5 3 8).
Proof.
  split.
  - intros p Hp; destruct Hp as [-> | ->]; simpl;
      rewrite !ceil_div4_eq; repeat split; try reflexivity;
      rewrite <- ?ceil_div4_eq; apply ceil_div4_bounds.
  - intros p Hp Hm Hr; destruct Hp as [-> | ->]; simpl; rewrite Hm, Hr; reflexivity.
Qed.

(* ------------------------------------------------------------------ *)
(** ** The document store *)

Module Store.

Lemma find_some_pred {A} (p : A -> bool) l x : find p l = Some x -> p x = true.
Proof.
  induction l as [|y l IH]; simpl; [discriminate|].
  destruct (p y) eqn:Hy; [intros H; injection H as <-; exact Hy | exact IH].
Qed.

Lemma findById_id d id u : findById d id = Some u -> u_id u = id.
Proof. intros H. apply find_some_pred in H. now apply String.eqb_eq. Qed.

Lemma findById_save_same d u v :
  findById d (u_id u) = Some v -> findById (save u d) (u_id u) = Some u.
Proof.
  unfold findById, save. induction d as [|w d IH]; simpl; [discriminate|].
  destruct (String.eqb (u_id w) (u_id u)) eqn:Hw; simpl.
  - now rewrite String.eqb_refl.
  - rewrite Hw. exact IH.
Qed.

Lemma findById_save_other d u id :
  id <> u_id u -> findById (save u d) id = findById d id.
Proof.
  intros Hne. unfold findById, save. induction d as [|w d IH]; simpl; [reflexivity|].
  destruct (String.eqb (u_id w) (u_id u)) eqn:Hw; simpl.
  - apply String.eqb_eq in Hw.
    destruct (String.eqb (u_id u) id) eqn:H1.
    + apply String.eqb_eq in H1. congruence.
    + destruct (String.eqb (u_id w) id) eqn:H2; [|exact IH].
      apply String.eqb_eq in H2. congruence.
  - destruct (String.eqb (u_id w) id); [reflexivity | exact IH].
Qed.

Lemma find_none_filter {A} (p : A -> bool) l : find p l = None -> filter p l = [].
Proof.
  induction l as [|y l IH]; simpl; [reflexivity|].
  destruct (p y); [discriminate | exact IH].
Qed.

Lemma filter_update_first {A} (p : A -> bool) (e : A) l x :
  find p l = Some x -> filter p l = [x] -> p e = true ->
  filter p (update_first p (fun _ => e) l) = [e].
Proof.
  induction l as [|y l IH]; simpl; [discriminate|].
  destruct (p y) eqn:Hy.
  - intros H1 H2 He. injection H1 as ->. injection H2 as H2. simpl. now rewrite He, H2.
  - intros H1 H2 He. simpl. rewrite Hy. now apply IH.
Qed.

Lemma filter_snoc {A} (p : A -> bool) l (x : A) :
  filter p l = [] -> p x = true -> filter p (l ++ [x]) = [x].
Proof. intros H Hx. rewrite filter_app, H. simpl. now rewrite Hx. Qed.

Lemma find_filter_neg {A} (p : A -> bool) l x :
  In x (filter (fun y => negb (p y)) l) -> p x = false.
Proof. intros H. apply filter_In in H as [_ H]. now destruct (p x). Qed.

Lemma find_update_first {A} (p : A -> bool) (e : A) l x :
  find p l = Some x -> p e = true -> find p (update_first p (fun _ => e) l) = Some e.
Proof.
  induction l as [|y l IH]; simpl; [discriminate|].
  destruct (p y) eqn:Hy; intros H He.
  - simpl. now rewrite He.
  - simpl. rewrite Hy. now apply IH.
Qed.

Lemma find_app_none {A} (p : A -> bool) l l' :
  find p l = None -> find p (l ++ l') = find p l'.
Proof.
  induction l as [|y l IH]; simpl; [reflexivity|].
  destruct (p y); [discriminate | exact IH].
Qed.

End Store.

(** Case analysis on every test of a handler, in the hypothesis [H]. *)
Ltac split_tests H :=
  repeat match type of H with
  | context [if ?c then _ else _] => let E := fresh "E" in destruct c eqn:E
  | context [match ?x with Some _ => _ | None => _ end] =>
      let E := fresh "E" in destruct x eqn:E
  end.

(* ------------------------------------------------------------------ *)
(** ** [POST /buy-tokens] *)

Module Purchase.

Lemma buy_tokens_error_unchanged d reqUser sid tid amt newId e d' :
  buy_tokens d reqUser sid tid amt newId = (inl e, d') -> d' = d.
Proof.
  unfold buy_tokens. intros H. split_tests H; simpl in H; congruence.
Qed.

Lemma findById_after_save d u id v :
  findById d id = Some v -> exists w, findById (save u d) id = Some w.
Proof.
  intros Hv. destruct (String.eqb id (u_id u)) eqn:E.
  - apply String.eqb_eq in E. subst id.
    exists u. eapply Store.findById_save_same. exact Hv.
  - apply String.eqb_neq in E. exists v.
    rewrite Store.findById_save_other by exact E. exact Hv.
Qed.


Lemma findById_save_by_id d id v w :
  findById d id = Some v -> u_id w = id -> findById (save w d) id = Some w.
Proof. intros Hv <-. eapply Store.findById_save_same. exact Hv. Qed.

Lemma findById_save_save d id v u w :
  findById d id = Some v -> u_id w = id -> findById (save w (save u d)) id = Some w.
Proof.
  intros Hv <-. destruct (findById_after_save d u (u_id w) v Hv) as [x Hx].
  eapply Store.findById_save_same. exact Hx.
Qed.

(** The purchase once all its checks pass, with the intermediate values
    named as in the handler. *)
Lemma buy_tokens_checks_pass d reqUser sid tid amt newId buyer seller token :
  (String.eqb sid "" || String.eqb tid "" || Qle_bool amt 0)%bool = false ->
  findById d reqUser = Some buyer -> Qle_bool amt (amount buyer) = true ->
  findById d sid = Some seller ->
  find (tok_id_is tid) (temporaryTokens seller) = Some token ->
  ~ (pricePerToken token == 0)%Q ->
  0 < Qfloor (amt / pricePerToken token) ->
  tokensRemaining token < Qfloor (amt / pricePerToken token) ->
  buy_tokens d reqUser sid tid amt newId = (inl NotEnoughTokens, d).
Proof.
  intros Hv Hb Hbal Hs Ht Hp Hpos Hlt. unfold buy_tokens.
  rewrite Hv, Hb, Hbal, Hs, Ht. simpl negb. cbv iota.
  destruct (Qeq_bool (pricePerToken token) 0) eqn:Hq.
  - reflexivity.
  - cbv zeta. rewrite (proj2 (Z.leb_gt _ _) Hpos), (proj2 (Z.ltb_lt _ _) Hlt).
    reflexivity.
Qed.

End Purchase.

(** Tactic for the success branch of [buy_tokens]. *)
Ltac buy_success H :=
  unfold buy_tokens in H; split_tests H; try discriminate;
  match type of H with
  | context [Qfloor ?x] => let n := fresh "n" in let Hn := fresh "Hn" in
      remember (Qfloor x) as n eqn:Hn in *
  end;
  cbv beta iota zeta in H; injection H as <- <-.

(** C4: a successful purchase never takes more tokens than the bundle has
    ([tokensRemaining] stays [>= 0]), and when it takes all of them the
    bundle is gone from the seller's document as saved by the same
    request; when the checks before it pass and the token count exceeds the
    remaining supply (or the price is 0, making the count Infinity) the
    purchase fails with "Seller does not have enough tokens available". *)
Theorem buy_tokens_supply :
  (forall d reqUser sid tid amt newId res d',
    buy_tokens d reqUser sid tid amt newId = (inr res, d') ->
    exists seller token seller',
      findById d sid = Some seller /\
      find (tok_id_is tid) (temporaryTokens seller) = Some token /\
      findById d' sid = Some seller' /\
      0 <= tokensRemaining token - tokensReceived res /\
      (tokensRemaining token - tokensReceived res = 0 ->
         forall t, In t (temporaryTokens seller') -> t_id t <> tid) /\
      (0 < tokensRemaining token - tokensReceived res ->
         exists t', find (tok_id_is tid) (temporaryTokens seller') = Some t' /\
                    tokensRemaining t' = tokensRemaining token - tokensReceived res)) /\
  (forall d reqUser sid tid amt newId buyer seller token,
    (String.eqb sid "" || String.eqb tid "" || Qle_bool amt 0)%bool = false ->
    findById d reqUser = Some buyer -> Qle_bool amt (amount buyer) = true ->
    findById d sid = Some seller ->
    find (tok_id_is tid) (temporaryTokens seller) = Some token ->
    (pricePerToken token == 0)%Q \/
    (0 < Qfloor (amt / pricePerToken token) /\
     tokensRemaining token < Qfloor (amt / pricePerToken token)) ->
    buy_tokens d reqUser sid tid amt newId = (inl NotEnoughTokens, d)).
Proof.
  split.
  - intros d reqUser sid tid amt newId res d' H. buy_success H.
    all: assert (Hid : u_id u0 = sid) by (eapply Store.findById_id; eauto).
    all: cbn [tokensRemaining set_remaining] in E7; apply Z.ltb_ge in E6.
    all: exists u0, t; eexists; split; [first [exact E2 | reflexivity]|].
    all: split; [first [exact E3 | reflexivity]|].
    all: cbn [tokensReceived].
    all: split; [eapply Purchase.findById_save_save; [exact E2 | exact Hid] |].
    all: split; [lia|].
    all: first
      [ apply Z.leb_le in E7; split; [|intros ?; exfalso; lia];
        intros _ x Hx; cbn [temporaryTokens set_tokens] in Hx;
        apply Store.find_filter_neg in Hx; apply String.eqb_neq; exact Hx
      | apply Z.leb_gt in E7; split; [intros ?; exfalso; lia|];
        intros _; eexists; split;
        [ cbn [temporaryTokens set_tokens set_amount];
          eapply Store.find_update_first; [exact E3|];
          exact (Store.find_some_pred _ _ _ E3)
        | reflexivity ] ].
  - intros d reqUser sid tid amt newId buyer seller token Hv Hb Hbal Hs Ht Hc.
    destruct (Qeq_bool (pricePerToken token) 0) eqn:Hq.
    + unfold buy_tokens. rewrite Hv, Hb, Hbal, Hs, Ht. simpl negb. cbv iota.
      now rewrite Hq.
    + destruct Hc as [Hc | [Hpos Hlt]].
      * apply Qeq_bool_iff in Hc. congruence.
      * eapply Purchase.buy_tokens_checks_pass; eauto.
        intros Hc. apply Qeq_bool_iff in Hc. congruence.
Qed.

(** For distinct buyer and seller accounts, a successful purchase transfers
    [floor(amount / price)] tokens, charges that many times the price (at
    most the requested amount), debits the buyer and credits the seller by
    exactly that charge. *)
Lemma buy_tokens_transfer d reqUser sid tid amt newId res d' :
  reqUser <> sid ->
  buy_tokens d reqUser sid tid amt newId = (inr res, d') ->
  exists buyer seller token buyer' seller',
    findById d reqUser = Some buyer /\ findById d sid = Some seller /\
    find (tok_id_is tid) (temporaryTokens seller) = Some token /\
    tokensReceived res = Qfloor (amt / pricePerToken token) /\
    amountSpent res = (inject_Z (tokensReceived res) * pricePerToken token)%Q /\
    (amountSpent res <= amt)%Q /\
    findById d' reqUser = Some buyer' /\ amount buyer' = (amount buyer - amountSpent res)%Q /\
    findById d' sid = Some seller' /\ amount seller' = (amount seller + amountSpent res)%Q.
Proof.
  intros Hne H. buy_success H.
  all: assert (Hid : u_id u0 = sid) by (eapply Store.findById_id; eauto).
  all: assert (Hbid : u_id u = reqUser) by (eapply Store.findById_id; eauto).
  all: assert (Hamt : (0 < amt)%Q)
         by (apply Qnot_le_lt; intros Hle; apply Qle_bool_iff in Hle;
             rewrite Hle, !orb_true_r in E; discriminate).
  all: assert (Hp : (0 < pricePerToken t)%Q).
  all: try (apply Z.leb_gt in E5;
            assert (Hq : (1 <= amt / pricePerToken t)%Q)
              by (apply Qle_trans with (inject_Z n);
                  [change 1%Q with (inject_Z 1); rewrite <- Zle_Qle; lia | rewrite Hn; apply Qfloor_le]);
            destruct (Q_dec (pricePerToken t) 0) as [[Hlt|Hgt]|Heq];
            [ exfalso;
              assert (Hm : (amt / pricePerToken t * pricePerToken t < 0)%Q)
                by (rewrite Qmult_comm;
                    apply Qlt_le_trans with (0 * (amt / pricePerToken t))%Q;
                    [apply Qmult_lt_r; [apply Qlt_le_trans with 1%Q; [reflexivity|exact Hq]
                                       | exact Hlt]
                    | rewrite Qmult_0_l; apply Qle_refl]);
              rewrite Qmult_comm, Qmult_div_r in Hm;
              [ apply (Qlt_irrefl 0%Q), Qlt_trans with amt; [exact Hamt | exact Hm]
              | intros Hz; apply Qeq_bool_iff in Hz; congruence ]
            | exact Hgt
            | apply Qeq_bool_iff in Heq; congruence ]).
  all: exists u, u0, t; do 2 eexists.
  all: split; [first [exact E0 | reflexivity]|].
  all: split; [first [exact E2 | reflexivity]|].
  all: split; [first [exact E3 | reflexivity]|].
  all: cbn [tokensReceived amountSpent]; split; [exact Hn|]; split; [reflexivity|].
  all: split;
    [ apply Qle_trans with (amt / pricePerToken t * pricePerToken t)%Q;
      [ apply Qmult_le_compat_r; [rewrite Hn; apply Qfloor_le | apply Qlt_le_weak, Hp]
      | rewrite Qmult_comm, Qmult_div_r; [apply Qle_refl|];
        intros Hz; apply Qeq_bool_iff in Hz; congruence ] |].
  all: split;
    [ rewrite Store.findById_save_other by (cbn [u_id set_tokens set_amount]; congruence);
      eapply Purchase.findById_save_by_id; [exact E0 | exact Hbid] |].
  all: split; [reflexivity|].
  all: split; [eapply Purchase.findById_save_save; [exact E2 | exact Hid] | reflexivity].
Qed.

(** C1 (code defect): nothing stops a user from buying its own listing.
    The handler then loads the same document twice, debits one copy,
    credits the other and saves both; the seller copy is saved last, so the
    account ends 10 richer after a purchase of 10 tokens at price 1, not
    10 poorer. *)
Theorem buy_tokens_self_purchase :
  let '(res, d') := buy_tokens Fixtures.self_db "U" "U" "L1" 10 "N" in
  (exists ok, res = inr ok /\ tokensReceived ok = 10 /\ (amountSpent ok == 10)%Q) /\
  (exists u, findById d' "U" = Some u /\ (amount u == 110)%Q /\ ~ (amount u == 100 - 10)%Q).
Proof.
  vm_compute. split.
  - eexists; split; [reflexivity | split; reflexivity].
  - eexists; split; [reflexivity | split; [reflexivity | discriminate]].
Qed.

(** C5: a failing purchase leaves the database unchanged, so balances and
    bundles from an earlier purchase stay intact; the checks run in the
    handler's order: buyer found, requested amount within the buyer's
    balance, seller found, listing found, at least one token
    ("Amount too small"), enough supply. In particular a repeated purchase
    that passes the earlier checks against a listing whose remaining supply
    is now too small fails "Seller does not have enough tokens available"
    and changes nothing. *)
Theorem buy_tokens_failure_no_effect :
  (forall d reqUser sid tid amt newId e d',
     buy_tokens d reqUser sid tid amt newId = (inl e, d') -> d' = d) /\
  (forall d reqUser sid tid amt newId,
     (String.eqb sid "" || String.eqb tid "" || Qle_bool amt 0)%bool = false ->
     findById d reqUser = None ->
     buy_tokens d reqUser sid tid amt newId = (inl BuyerNotFound, d)) /\
  (forall d reqUser sid tid amt newId buyer,
     (String.eqb sid "" || String.eqb tid "" || Qle_bool amt 0)%bool = false ->
     findById d reqUser = Some buyer -> (amount buyer < amt)%Q ->
     buy_tokens d reqUser sid tid amt newId = (inl InsufficientBalance, d)) /\
  (forall d reqUser sid tid amt newId buyer,
     (String.eqb sid "" || String.eqb tid "" || Qle_bool amt 0)%bool = false ->
     findById d reqUser = Some buyer -> (amt <= amount buyer)%Q ->
     findById d sid = None ->
     buy_tokens d reqUser sid tid amt newId = (inl SellerNotFound, d)) /\
  (forall d reqUser sid tid amt newId buyer seller,
     (String.eqb sid "" || String.eqb tid "" || Qle_bool amt 0)%bool = false ->
     findById d reqUser = Some buyer -> (amt <= amount buyer)%Q ->
     findById d sid = Some seller ->
     find (tok_id_is tid) (temporaryTokens seller) = None ->
     buy_tokens d reqUser sid tid amt newId = (inl TokenNotFound, d)) /\
  (forall d reqUser sid tid amt newId buyer seller token,
     (String.eqb sid "" || String.eqb tid "" || Qle_bool amt 0)%bool = false ->
     findById d reqUser = Some buyer -> (amt <= amount buyer)%Q ->
     findById d sid = Some seller ->
     find (tok_id_is tid) (temporaryTokens seller) = Some token ->
     ~ (pricePerToken token == 0)%Q -> Qfloor (amt / pricePerToken token) <= 0 ->
     buy_tokens d reqUser sid tid amt newId = (inl AmountTooSmall, d)) /\
  (forall d reqUser sid tid amt newId buyer seller token,
     (String.eqb sid "" || String.eqb tid "" || Qle_bool amt 0)%bool = false ->
     findById d reqUser = Some buyer -> (amt <= amount buyer)%Q ->
     findById d sid = Some seller ->
     find (tok_id_is tid) (temporaryTokens seller) = Some token ->
     ~ (pricePerToken token == 0)%Q ->
     0 < Qfloor (amt / pricePerToken token) ->
     tokensRemaining token < Qfloor (amt / pricePerToken token) ->
     buy_tokens d reqUser sid tid amt newId = (inl NotEnoughTokens, d)).
Proof.
  split; [exact Purchase.buy_tokens_error_unchanged|].
  split; [intros * Hv Hb; unfold buy_tokens; now rewrite Hv, Hb|].
  split.
  { intros * Hv Hb Hlt; unfold buy_tokens; rewrite Hv, Hb.
    destruct (Qle_bool amt (amount buyer)) eqn:Hq; [|reflexivity].
    apply Qle_bool_iff in Hq. exfalso. now apply (Qlt_not_le _ _ Hlt). }
  split.
  { intros * Hv Hb Hle Hs; unfold buy_tokens; rewrite Hv, Hb.
    apply Qle_bool_iff in Hle. rewrite Hle. simpl negb. cbv iota. now rewrite Hs. }
  split.
  { intros * Hv Hb Hle Hs Ht; unfold buy_tokens; rewrite Hv, Hb.
    apply Qle_bool_iff in Hle. rewrite Hle. simpl negb. cbv iota. now rewrite Hs, Ht. }
  split.
  { intros * Hv Hb Hle Hs Ht Hp Hz; unfold buy_tokens; rewrite Hv, Hb.
    apply Qle_bool_iff in Hle. rewrite Hle. simpl negb. cbv iota. rewrite Hs, Ht.
    destruct (Qeq_bool (pricePerToken token) 0) eqn:Hq.
    - apply Qeq_bool_iff in Hq. contradiction.
    - cbv zeta. now rewrite (proj2 (Z.leb_le _ _) Hz). }
  intros * Hv Hb Hle Hs Ht Hp Hpos Hlt.
  eapply Purchase.buy_tokens_checks_pass; eauto. now apply Qle_bool_iff.
Qed.

(** The buyer document after a purchase between distinct accounts: the
    first bundle with the listing's name and seller gets the tokens added,
    or, when there is none, a new bundle is appended. *)
Lemma buy_tokens_buyer_side d b sid tid amt newId res d' :
  b <> sid ->
  buy_tokens d b sid tid amt newId = (inr res, d') ->
  exists buyer seller token buyer',
    findById d b = Some buyer /\ findById d sid = Some seller /\
    find (tok_id_is tid) (temporaryTokens seller) = Some token /\
    findById d' b = Some buyer' /\
    temporaryTokens buyer' =
      match find (same_listing (t_name token) sid) (temporaryTokens buyer) with
      | Some e =>
          update_first (same_listing (t_name token) sid)
            (fun _ => set_remaining e (tokensRemaining e + tokensReceived res))
            (temporaryTokens buyer)
      | None =>
          temporaryTokens buyer ++
            [mkTempToken newId (t_name token) (t_apiKey token) (tokensReceived res)
               (expiresAt token) (pricePerToken token) sid (originalApiKeyId token) None]
      end.
Proof.
  intros Hne H. buy_success H.
  all: assert (Hid : u_id u0 = sid) by (eapply Store.findById_id; eauto).
  all: assert (Hbid : u_id u = b) by (eapply Store.findById_id; eauto).
  all: cbn [temporaryTokens set_amount t_name set_remaining] in E8.
  all: exists u, u0, t; eexists.
  all: split; [first [exact E0 | reflexivity]|].
  all: split; [first [exact E2 | reflexivity]|].
  all: split; [first [exact E3 | reflexivity]|].
  all: split;
    [ rewrite Store.findById_save_other by (cbn [u_id set_tokens set_amount]; congruence);
      eapply Purchase.findById_save_by_id; [exact E0 | exact Hbid] |].
  all: rewrite E8; cbn [temporaryTokens set_tokens tokensReceived]; now rewrite ?Hid.
Qed.

(** C6: two successful purchases by one buyer from another account, of
    listings with the same name, when the buyer held no bundle with that
    (name, seller) pair: the first appends a new bundle carrying the
    listing's credential, price, expiry, seller id and original key id; the
    second adds its tokens to that bundle, which is then the only one with
    that pair and holds the sum of the two token counts. *)
Theorem buy_tokens_merge d b s tid1 tid2 amt1 amt2 id1 id2 res1 d1 res2 d2
    buyer seller token1 seller1 token2 :
  b <> s ->
  findById d b = Some buyer -> findById d s = Some seller ->
  find (tok_id_is tid1) (temporaryTokens seller) = Some token1 ->
  find (same_listing (t_name token1) s) (temporaryTokens buyer) = None ->
  buy_tokens d b s tid1 amt1 id1 = (inr res1, d1) ->
  findById d1 s = Some seller1 ->
  find (tok_id_is tid2) (temporaryTokens seller1) = Some token2 ->
  t_name token2 = t_name token1 ->
  buy_tokens d1 b s tid2 amt2 id2 = (inr res2, d2) ->
  (exists buyer1, findById d1 b = Some buyer1 /\
     temporaryTokens buyer1 = temporaryTokens buyer ++
       [mkTempToken id1 (t_name token1) (t_apiKey token1) (tokensReceived res1)
          (expiresAt token1) (pricePerToken token1) s (originalApiKeyId token1) None]) /\
  (exists buyer2 bundle, findById d2 b = Some buyer2 /\
     filter (same_listing (t_name token1) s) (temporaryTokens buyer2) = [bundle] /\
     tokensRemaining bundle = tokensReceived res1 + tokensReceived res2).
Proof.
  intros Hne Hb Hs Ht1 Hnone H1 Hs1 Ht2 Hname H2.
  destruct (buy_tokens_buyer_side _ _ _ _ _ _ _ _ Hne H1)
    as (bu & se & tk & bu1 & Hbu & Hse & Htk & Hbu1 & Htoks1).
  rewrite Hb in Hbu; injection Hbu as <-. rewrite Hs in Hse; injection Hse as <-.
  rewrite Ht1 in Htk; injection Htk as <-. rewrite Hnone in Htoks1.
  split; [exists bu1; split; assumption|].
  destruct (buy_tokens_buyer_side _ _ _ _ _ _ _ _ Hne H2)
    as (bu' & se' & tk' & bu2 & Hbu' & Hse' & Htk' & Hbu2 & Htoks2).
  rewrite Hbu1 in Hbu'; injection Hbu' as <-. rewrite Hs1 in Hse'; injection Hse' as <-.
  rewrite Ht2 in Htk'; injection Htk' as <-. rewrite Hname in Htoks2.
  set (p := same_listing (t_name token1) s) in *.
  set (nt := mkTempToken id1 (t_name token1) (t_apiKey token1) (tokensReceived res1)
          (expiresAt token1) (pricePerToken token1) s (originalApiKeyId token1) None) in *.
  assert (Hp : p nt = true)
    by (unfold p, same_listing; cbn [t_name sellerId nt]; now rewrite !String.eqb_refl).
  assert (Hfind : find p (temporaryTokens bu1) = Some nt)
    by (rewrite Htoks1, Store.find_app_none by exact Hnone; simpl; now rewrite Hp).
  rewrite Hfind in Htoks2.
  exists bu2, (set_remaining nt (tokensRemaining nt + tokensReceived res2)).
  split; [exact Hbu2|]. split; [|reflexivity].
  rewrite Htoks2. eapply Store.filter_update_first; [exact Hfind| |exact Hp].
  rewrite Htoks1. apply Store.filter_snoc; [now apply Store.find_none_filter | exact Hp].
Qed.

Lemma buy_tokens_merge_witness :
  exists res1 d1 res2 d2 seller1 token2,
    buy_tokens Fixtures.market_db "B" "S" "L2" 5 "N1" = (inr res1, d1) /\
    findById d1 "S" = Some seller1 /\
    find (tok_id_is "L2") (temporaryTokens seller1) = Some token2 /\
    buy_tokens d1 "B" "S" "L2" 5 "N2" = (inr res2, d2) /\
    (exists buyer2 bundle, findById d2 "B" = Some buyer2 /\
       filter (same_listing "gpt-4 quota" "S") (temporaryTokens buyer2) = [bundle] /\
       tokensRemaining bundle = tokensReceived res1 + tokensReceived res2).
Proof.
  do 6 eexists.
  split; [reflexivity|]. split; [reflexivity|]. split; [reflexivity|].
  split; [reflexivity|].
  refine (proj2 (buy_tokens_merge Fixtures.market_db "B" "S" "L2" "L2" 5 5 "N1" "N2"
                   _ _ _ _ Fixtures.buyer_B Fixtures.seller_S Fixtures.listing_L2 _ _
                   _ _ _ _ _ _ _ _ _ _)).
  all: first [discriminate | reflexivity].
Defined.

(** C10: a bundle created by a purchase never carries [apiKeyName] (a
    merged bundle keeps the one it had), and a chat request on a bundle
    without [apiKeyName] takes its provider from the name of the seller's
    original key, found through [sellerId] and [originalApiKeyId]. *)
Theorem purchased_bundle_provider :
  (forall d b sid tid amt newId res d',
     buy_tokens d b sid tid amt newId = (inr res, d') ->
     (t_id (purchasedToken res) = newId /\ apiKeyName (purchasedToken res) = None) \/
     (exists buyer e, findById d b = Some buyer /\ In e (temporaryTokens buyer) /\
        purchasedToken res = set_remaining e (tokensRemaining (purchasedToken res)))) /\
  (forall d u message keyId modelId p t,
     chat_prepare d u message "temp" keyId modelId = inr p ->
     p_source p = TempSource t -> apiKeyName t = None ->
     exists seller orig,
       findById d (sellerId t) = Some seller /\
       find (key_id_is (originalApiKeyId t)) (api_keys seller) = Some orig /\
       getProviderFromModel (k_name orig) = Some (p_provider p)).
Proof.
  split.
  - intros d b sid tid amt newId res d' H. buy_success H.
    all: cbn [purchasedToken].
    all: first
      [ left; split; reflexivity
      | right; exists u, t0; split; [first [exact E0 | reflexivity]|]; split; [|reflexivity];
        apply find_some in E8 as [Hin _]; exact Hin ].
  - intros d u message keyId modelId p t H Hs Hn.
    unfold chat_prepare in H. split_tests H; try discriminate.
    all: injection H as <-; cbn [p_source p_provider] in *; try discriminate.
    all: injection Hs as <-; rewrite Hn in E6; cbn [js_or] in E6.
    all: eexists; eexists; split; [eassumption|]; split; [eassumption|]; exact E6.
Qed.

Module Expiry.

Lemma find_map_inv {A} (p : A -> bool) (f : A -> A) l :
  (forall x, p (f x) = p x) -> find p (map f l) = option_map f (find p l).
Proof.
  intros Hf. induction l as [|y l IH]; simpl; [reflexivity|].
  rewrite Hf. destruct (p y); [reflexivity | exact IH].
Qed.

Lemma findById_with_expiry d uid tid e x :
  findById (with_expiry d uid tid e) x = option_map (expire_user uid tid e) (findById d x).
Proof.
  unfold findById, with_expiry. apply find_map_inv.
  intros u. unfold expire_user. now destruct (String.eqb (u_id u) uid).
Qed.

Lemma api_keys_expire_user uid tid e u : api_keys (expire_user uid tid e u) = api_keys u.
Proof. unfold expire_user. now destruct (String.eqb (u_id u) uid). Qed.

Lemma find_expire_tok tid e l :
  find (tok_id_is tid) (map (expire_tok tid e) l)
  = option_map (fun t => set_expires t e) (find (tok_id_is tid) l).
Proof.
  induction l as [|y l IH]; [reflexivity|].
  change (find (tok_id_is tid) (expire_tok tid e y :: map (expire_tok tid e) l)
          = option_map (fun t => set_expires t e)
              (if tok_id_is tid y then Some y else find (tok_id_is tid) l)).
  unfold expire_tok at 1. destruct (tok_id_is tid y) eqn:Hy.
  - change (find (tok_id_is tid) (set_expires y e :: map (expire_tok tid e) l))
      with (if tok_id_is tid y then Some (set_expires y e)
            else find (tok_id_is tid) (map (expire_tok tid e) l)).
    now rewrite Hy.
  - change (find (tok_id_is tid) (y :: map (expire_tok tid e) l))
      with (if tok_id_is tid y then Some y
            else find (tok_id_is tid) (map (expire_tok tid e) l)).
    rewrite Hy. exact IH.
Qed.

(** The response of [chat_finish] depends on the prepared request only
    through the provider and the remaining tokens of the bundle. *)
Lemma chat_finish_fst_temp d d' p p' message reply t t' :
  p_provider p = p_provider p' -> p_source p = TempSource t -> p_source p' = TempSource t' ->
  tokensRemaining t = tokensRemaining t' ->
  fst (chat_finish d p message reply) = fst (chat_finish d' p' message reply).
Proof.
  intros Hp Hs Hs' Hr. unfold chat_finish.
  destruct reply as [r|]; [|reflexivity].
  rewrite Hs, Hs', Hp, Hr. cbv zeta.
  destruct (_ >? _); reflexivity.
Qed.

End Expiry.

(** C7, counterexample: bundle "T" of user "C" expired at time 0; at time
    1000 a chat request on it passes the checks made before the upstream
    call, and is then served and debited. *)
Lemma expired_bundle_served :
  let now := 1000 in
  (exists u t, findById Fixtures.holder_db "C" = Some u /\
     find (tok_id_is "T") (temporaryTokens u) = Some t /\ expiresAt t < now) /\
  prepare_error (chat_prepare Fixtures.holder_db "C" "hello" "temp" "T" "gpt-4") = None /\
  exists ok d', chat Fixtures.holder_db "C" "hello" "temp" "T" "gpt-4"
                  (Some (Fixtures.reply_of 3)) = (inr ok, d').
Proof.
  cbv zeta. split; [|split].
  - do 2 eexists. split; [reflexivity|]. split; reflexivity.
  - vm_compute. reflexivity.
  - do 2 eexists. vm_compute. reflexivity.
Qed.

(** C7 (amended): the chat route never reads [expiresAt]: whatever the
    expiry of the bundle, a request on it is rejected before the upstream
    call in exactly the same cases, and otherwise gets the same outcome. *)
Theorem chat_ignores_expiry d uid message keyId modelId e reply :
  prepare_error (chat_prepare (with_expiry d uid keyId e) uid message "temp" keyId modelId)
  = prepare_error (chat_prepare d uid message "temp" keyId modelId) /\
  fst (chat (with_expiry d uid keyId e) uid message "temp" keyId modelId reply)
  = fst (chat d uid message "temp" keyId modelId reply).
Proof.
  unfold chat, chat_prepare.
  destruct (_ || _ || _ || _)%bool; [split; reflexivity|].
  rewrite Expiry.findById_with_expiry.
  destruct (findById d uid) as [u|] eqn:Hu; [|split; reflexivity].
  cbn [option_map]. rewrite (String.eqb_refl "temp").
  assert (Hid : u_id u = uid) by (eapply Store.findById_id; eauto).
  assert (Ht : temporaryTokens (expire_user uid keyId e u)
               = map (expire_tok keyId e) (temporaryTokens u))
    by (unfold expire_user; now rewrite Hid, String.eqb_refl).
  rewrite Ht, Expiry.find_expire_tok.
  destruct (find (tok_id_is keyId) (temporaryTokens u)) as [tk|]; [|split; reflexivity].
  cbn [option_map tokensRemaining set_expires sellerId originalApiKeyId apiKeyName].
  destruct (tokensRemaining tk <=? 0); [split; reflexivity|].
  rewrite Expiry.findById_with_expiry.
  destruct (findById d (sellerId tk)) as [sl|]; [|split; reflexivity].
  cbn [option_map]. rewrite Expiry.api_keys_expire_user.
  destruct (find (key_id_is (originalApiKeyId tk)) (api_keys sl)) as [ok|]; [|split; reflexivity].
  destruct (getProviderFromModel _); [|split; reflexivity].
  split; [reflexivity|].
  eapply Expiry.chat_finish_fst_temp; reflexivity.
Qed.

Module ChatFacts.

(** What the temp branch of [chat_prepare] read: the requester's document,
    and the bundle [keyId] in it. *)
Lemma prepare_temp d uid message keyId modelId p t :
  chat_prepare d uid message "temp" keyId modelId = inr p -> p_source p = TempSource t ->
  findById d uid = Some (p_user p) /\ p_keyId p = keyId /\
  find (tok_id_is keyId) (temporaryTokens (p_user p)) = Some t.
Proof.
  unfold chat_prepare. intros H Hs.
  split_tests H; try discriminate.
  injection H as <-. cbn in Hs |- *. injection Hs as <-.
  split; [first [assumption | reflexivity]|]. split; [reflexivity|first [assumption | reflexivity]].
Qed.

End ChatFacts.

(** C8: when the usage metered from the provider response exceeds the
    counter the request was checked against, the request is rejected with
    the route's insufficient-tokens error and nothing is saved: every key's
    [available] and every bundle's [tokensRemaining] are as before. *)
Theorem chat_overdraft_no_debit d uid message keyType keyId modelId p r :
  chat_prepare d uid message keyType keyId modelId = inr p ->
  quota_of (p_source p) < totalTokens (resp_usage (handleProviderRequest (p_provider p) message r)) ->
  chat d uid message keyType keyId modelId (Some r) = (inl (overdraft_error (p_source p)), d).
Proof.
  intros Hp Hlt. unfold chat. rewrite Hp. unfold chat_finish. cbv zeta.
  destruct (p_source p) as [t|k]; cbn [quota_of overdraft_error] in *.
  - replace (_ >? tokensRemaining t) with true by lia. reflexivity.
  - replace (available k <? _) with true by lia. reflexivity.
Qed.

(** Witness: "C" asks for 20 tokens of usage on bundle "T", which has 10. *)
Lemma chat_overdraft_no_debit_witness :
  chat Fixtures.holder_db "C" "hi" "temp" "T" "gpt-4" (Some (Fixtures.reply_of 20))
  = (inl InsufficientTokens, Fixtures.holder_db).
Proof.
  destruct (chat_prepare Fixtures.holder_db "C" "hi" "temp" "T" "gpt-4") as [er|p] eqn:E;
    vm_compute in E; [discriminate|].
  injection E as Ep. subst p.
  exact (chat_overdraft_no_debit Fixtures.holder_db "C" "hi" "temp" "T" "gpt-4" _
           (Fixtures.reply_of 20) ltac:(vm_compute; reflexivity) ltac:(vm_compute; reflexivity)).
Defined.

(** C9, counterexample: two concurrent requests on bundle "T" (10 tokens),
    each metered at 6 tokens: both succeed, and the stored bundle ends at 4
    tokens, so 12 tokens were served for a debit of 6. *)
Lemma concurrent_chats_both_succeed :
  exists ok1 ok2 d',
    chat_concurrent Fixtures.holder_db "C" "hi" "temp" "T" "gpt-4"
      (Some (Fixtures.reply_of 6)) (Some (Fixtures.reply_of 6)) = (inr ok1, inr ok2, d') /\
    remainingTokens ok1 = 4 /\ remainingTokens ok2 = 4 /\
    exists u t, findById d' "C" = Some u /\ find (tok_id_is "T") (temporaryTokens u) = Some t /\
      tokensRemaining t = 4.
Proof.
  do 3 eexists. split; [vm_compute; reflexivity|].
  split; [reflexivity|]. split; [reflexivity|].
  do 2 eexists. split; [reflexivity|]. split; reflexivity.
Qed.

(** C9 (amended): the route reads the counter before the upstream call and
    writes it back after, with no atomic decrement. Two concurrent requests
    on a bundle holding [R] tokens, metered at [c1 < R] and [c2 < R], are
    both checked against [R] and both succeed; the save of the second
    overwrites the first, so the stored counter ends at [R - c2] and the
    debit [c1] is lost. Neither request empties the bundle, so neither
    reassigns the [temporaryTokens] array: both saves write only the
    bundle's counter, which the whole-document [save] models faithfully. *)
Theorem chat_concurrent_lost_update d uid message keyId modelId p t r1 r2 :
  chat_prepare d uid message "temp" keyId modelId = inr p ->
  p_source p = TempSource t ->
  totalTokens (resp_usage (handleProviderRequest (p_provider p) message r1)) < tokensRemaining t ->
  totalTokens (resp_usage (handleProviderRequest (p_provider p) message r2)) < tokensRemaining t ->
  exists ok1 ok2 d',
    chat_concurrent d uid message "temp" keyId modelId (Some r1) (Some r2)
      = (inr ok1, inr ok2, d') /\
    remainingTokens ok1
      = tokensRemaining t - totalTokens (resp_usage (handleProviderRequest (p_provider p) message r1)) /\
    remainingTokens ok2
      = tokensRemaining t - totalTokens (resp_usage (handleProviderRequest (p_provider p) message r2)) /\
    exists u, findById d' uid = Some u /\
      find (tok_id_is keyId) (temporaryTokens u)
      = Some (set_remaining t (tokensRemaining t
          - totalTokens (resp_usage (handleProviderRequest (p_provider p) message r2)))).
Proof.
  intros Hp Hs H1 H2.
  destruct (ChatFacts.prepare_temp _ _ _ _ _ _ _ Hp Hs) as (Hu & Hk & Ht).
  set (c1 := totalTokens (resp_usage (handleProviderRequest (p_provider p) message r1))) in *.
  set (c2 := totalTokens (resp_usage (handleProviderRequest (p_provider p) message r2))) in *.
  unfold chat_concurrent. rewrite Hp.
  unfold chat_finish at 1. rewrite Hs. cbv zeta. fold c1.
  replace (c1 >? tokensRemaining t) with false by lia.
  set (d1 := save _ d).
  unfold chat_finish. rewrite Hs. cbv zeta. fold c2.
  replace (c2 >? tokensRemaining t) with false by lia.
  cbn [set_remaining tokensRemaining].
  replace (tokensRemaining t - c2 <=? 0) with false by lia.
  assert (Hd1 : exists w, findById d1 uid = Some w)
    by (unfold d1; eapply Purchase.findById_after_save; exact Hu).
  destruct Hd1 as [w Hw].
  assert (Hid : u_id (p_user p) = uid) by (eapply Store.findById_id; exact Hu).
  do 3 eexists. split; [reflexivity|].
  split; [reflexivity|]. split; [reflexivity|].
  eexists. split.
  - apply (Purchase.findById_save_by_id d1 uid w); [exact Hw|exact Hid].
  - cbn [temporaryTokens set_tokens]. rewrite Hk.
    apply (Store.find_update_first _ _ _ t Ht).
    exact (Store.find_some_pred _ _ _ Ht).
Qed.

(** Witness: bundle "T" of user "C" holds 10 tokens; the two requests are
    metered at 6 and 4. *)
Lemma chat_concurrent_lost_update_witness :
  exists ok1 ok2 d',
    chat_concurrent Fixtures.holder_db "C" "hi" "temp" "T" "gpt-4"
      (Some (Fixtures.reply_of 6)) (Some (Fixtures.reply_of 4)) = (inr ok1, inr ok2, d') /\
    remainingTokens ok1 = 4 /\ remainingTokens ok2 = 6 /\
    exists u, findById d' "C" = Some u /\
      find (tok_id_is "T") (temporaryTokens u) = Some (set_remaining Fixtures.bundle_T 6).
Proof.
  destruct (chat_prepare Fixtures.holder_db "C" "hi" "temp" "T" "gpt-4") as [er|p] eqn:E;
    vm_compute in E; [discriminate|].
  injection E as Ep. subst p.
  exact (chat_concurrent_lost_update Fixtures.holder_db "C" "hi" "T" "gpt-4" _ Fixtures.bundle_T
           (Fixtures.reply_of 6) (Fixtures.reply_of 4)
           ltac:(vm_compute; reflexivity) eq_refl
           ltac:(vm_compute; reflexivity) ltac:(vm_compute; reflexivity)).
Defined.

(* ================================================================== *)
(** * Further properties of the routes *)

(* ------------------------------------------------------------------ *)
(** ** [GET /available-models] *)

(** The models the route lists for a key form a non-empty list, all of
    whose ids [getProviderFromModel] maps to the provider inferred from
    the key's own name: the bundle's [name] for a purchased bundle, the
    key's [name] for an owned key. *)
Theorem available_models_sound d uid keyType keyId ms :
  available_models d uid keyType keyId = inr ms ->
  exists u name p,
    findById d uid = Some u /\
    ((keyType = "temp"%string /\ exists t, find (tok_id_is keyId) (temporaryTokens u) = Some t /\
                                     name = t_name t) \/
     (keyType = "user"%string /\ exists k, find (key_id_is keyId) (api_keys u) = Some k /\
                                     name = k_name k)) /\
    getProviderFromModel name = Some p /\ ms = models_of p /\ ms <> [] /\
    Forall (fun m => getProviderFromModel (model_id m) = Some p) ms.
Proof.
  unfold available_models. intros H. split_tests H; try discriminate.
  all: injection H as <-.
  all: apply String.eqb_eq in E0 || apply String.eqb_eq in E1.
  all: do 3 eexists; split; [first [eassumption | reflexivity]|].
  all: split; [first [left; split; [assumption|]; eexists; split; [eassumption|reflexivity]
                    | right; split; [assumption|]; eexists; split; [eassumption|reflexivity]]|].
  all: split; [eassumption|]; split; [reflexivity|].
  all: match goal with p : provider |- _ => destruct p end.
  all: split; [discriminate|]; repeat constructor.
Qed.

(** For a purchased bundle the two routes infer the provider from different
    names: [/available-models] from the bundle's [name], [/chat] from
    [apiKeyName] or else the seller's original key's [name]. A bundle whose
    name names no model family, bought from a key whose name does, is
    rejected with a 500 by [/available-models] while [/chat] accepts it and
    calls the upstream provider. *)
Theorem available_models_bundle_name d uid message keyId modelId u t seller k p :
  message <> ""%string -> keyId <> ""%string -> modelId <> ""%string ->
  findById d uid = Some u ->
  find (tok_id_is keyId) (temporaryTokens u) = Some t ->
  0 < tokensRemaining t -> apiKeyName t = None ->
  findById d (sellerId t) = Some seller ->
  find (key_id_is (originalApiKeyId t)) (api_keys seller) = Some k ->
  getProviderFromModel (t_name t) = None ->
  getProviderFromModel (k_name k) = Some p ->
  available_models d uid "temp" keyId = inl ModelsServerError /\
  exists pr, chat_prepare d uid message "temp" keyId modelId = inr pr /\ p_provider pr = p.
Proof.
  intros Hm Hk Hmo Hu Ht Hr Hn Hs Hok Hpt Hpk.
  apply String.eqb_neq in Hm, Hk, Hmo.
  split.
  - unfold available_models. rewrite Hk. cbn [orb String.eqb].
    rewrite Hu, Ht, Hpt. reflexivity.
  - unfold chat_prepare. rewrite Hm, Hk, Hmo. cbn [orb String.eqb].
    rewrite Hu, Ht.
    replace (tokensRemaining t <=? 0) with false by lia.
    rewrite Hs, Hok, Hn. cbn [js_or]. rewrite Hpk.
    eexists. split; reflexivity.
Qed.

(** Witness: bundle "Q" ("bulk quota") of user "D", bought from key "K1"
    ("gpt-4 key") of seller "S". *)
Lemma available_models_bundle_name_witness :
  available_models Fixtures.plain_db "D" "temp" "Q" = inl ModelsServerError /\
  exists pr, chat_prepare Fixtures.plain_db "D" "hi" "temp" "Q" "gpt-4" = inr pr /\
             p_provider pr = openai.
Proof.
  apply (available_models_bundle_name Fixtures.plain_db "D" "hi" "Q" "gpt-4"
           (mkUser "D" 0 [] [Fixtures.plain_bundle]) Fixtures.plain_bundle
           Fixtures.seller_S Fixtures.gpt_key openai);
    first [discriminate | reflexivity | vm_compute; reflexivity | lia].
Defined.

(* ------------------------------------------------------------------ *)
(** ** Ledger sums *)

Module Ledger.

Lemma bundle_sum_app l l' : bundle_sum (l ++ l') = bundle_sum l + bundle_sum l'.
Proof. induction l as [|t l IH]; simpl; lia. Qed.

Lemma bundle_sum_snoc l x : bundle_sum (l ++ [x]) = bundle_sum l + tokensRemaining x.
Proof. rewrite bundle_sum_app. simpl. lia. Qed.

Lemma bundle_sum_update p e l x :
  find p l = Some x ->
  bundle_sum (update_first p (fun _ => e) l) = bundle_sum l - tokensRemaining x + tokensRemaining e.
Proof.
  induction l as [|y l IH]; simpl; [discriminate|].
  destruct (p y) eqn:Hy.
  - intros H; injection H as <-. simpl. lia.
  - intros H. simpl. rewrite (IH H). lia.
Qed.

Lemma bundle_sum_filter_zero tid l :
  (forall t, In t l -> t_id t = tid -> tokensRemaining t = 0) ->
  bundle_sum (filter (fun t => negb (tok_id_is tid t)) l) = bundle_sum l.
Proof.
  induction l as [|y l IH]; intros Hz; [reflexivity|].
  assert (IH' := IH (fun t Ht => Hz t (or_intror Ht))).
  cbn [filter]. change (bundle_sum (y :: l)) with (tokensRemaining y + bundle_sum l).
  destruct (tok_id_is tid y) eqn:Hy; cbn [negb].
  - unfold tok_id_is in Hy. apply String.eqb_eq in Hy.
    rewrite IH', (Hz y (or_introl eq_refl) Hy). lia.
  - change (bundle_sum (y :: filter (fun t => negb (tok_id_is tid t)) l))
      with (tokensRemaining y + bundle_sum (filter (fun t => negb (tok_id_is tid t)) l)).
    now rewrite IH'.
Qed.

(** With distinct bundle ids, after the in-place update of bundle [tid]
    the updated value is the only bundle with that id. *)
Lemma update_first_unique tid e l x t :
  NoDup (map t_id l) -> find (tok_id_is tid) l = Some x ->
  In t (update_first (tok_id_is tid) (fun _ => e) l) -> t_id t = tid -> t = e.
Proof.
  induction l as [|y l IH]; simpl; [discriminate|].
  intros Hnd. inversion Hnd as [|? ? Hnin Hnd']; subst.
  destruct (tok_id_is tid y) eqn:Hy.
  - intros _ [<- | Hin] Ht; [reflexivity|].
    exfalso. apply Hnin. unfold tok_id_is in Hy. apply String.eqb_eq in Hy.
    rewrite Hy, <- Ht. now apply in_map.
  - intros Hf [<- | Hin] Ht.
    + unfold tok_id_is in Hy. apply String.eqb_neq in Hy. contradiction.
    + exact (IH Hnd' Hf Hin Ht).
Qed.

Lemma map_u_id_save d u : map u_id (save u d) = map u_id d.
Proof.
  induction d as [|v d IH]; simpl; [reflexivity|].
  destruct (String.eqb (u_id v) (u_id u)) eqn:E; simpl; rewrite IH; [|reflexivity].
  apply String.eqb_eq in E. now rewrite E.
Qed.

Lemma save_absent d u : ~ In (u_id u) (map u_id d) -> save u d = d.
Proof.
  induction d as [|v d IH]; simpl; intros Hn; [reflexivity|].
  destruct (String.eqb (u_id v) (u_id u)) eqn:E.
  - apply String.eqb_eq in E. exfalso. apply Hn. now left.
  - f_equal. apply IH. intros Hi. apply Hn. now right.
Qed.

Lemma total_tokens_save d u v :
  NoDup (map u_id d) -> findById d (u_id u) = Some v ->
  total_tokens (save u d) = total_tokens d - tokens_of v + tokens_of u.
Proof.
  induction d as [|w d IH]; simpl; [discriminate|].
  intros Hnd. inversion Hnd as [|? ? Hnin Hnd']; subst.
  unfold findById; simpl. destruct (String.eqb (u_id w) (u_id u)) eqn:E.
  - intros H; injection H as <-. apply String.eqb_eq in E.
    rewrite save_absent by (rewrite <- E; exact Hnin). simpl. lia.
  - intros H. simpl. rewrite (IH Hnd' H). lia.
Qed.

(** A positive amount buys at least one token only at a positive price. *)
Lemma price_pos amt p :
  (0 < amt)%Q -> ~ (p == 0)%Q -> 0 < Qfloor (amt / p) -> (0 < p)%Q.
Proof.
  intros Hamt Hnz Hpos.
  assert (Hq : (1 <= amt / p)%Q)
    by (apply Qle_trans with (inject_Z (Qfloor (amt / p)));
        [change 1%Q with (inject_Z 1); rewrite <- Zle_Qle; lia | apply Qfloor_le]).
  destruct (Q_dec p 0) as [[Hlt|Hgt]|Heq]; [exfalso | exact Hgt | contradiction].
  assert (Hm : (amt / p * p < 0)%Q).
  { rewrite Qmult_comm.
    apply Qlt_le_trans with (0 * (amt / p))%Q.
    - apply Qmult_lt_r; [apply Qlt_le_trans with 1%Q; [reflexivity | exact Hq] | exact Hlt].
    - rewrite Qmult_0_l. apply Qle_refl. }
  rewrite Qmult_comm, Qmult_div_r in Hm by exact Hnz. lra.
Qed.

End Ledger.

(** Common first steps on a successful purchase by [b] from another
    account [sid]: the documents' ids, and the two saves as updates of the
    ledger sums. *)
Ltac buy_two_docs H Hne :=
  buy_success H;
  match goal with
  | E0 : findById ?d ?b = Some ?u, E2 : findById ?d ?sid = Some ?u0 |- _ =>
      assert (Hbid : u_id u = b) by (eapply Store.findById_id; exact E0);
      assert (Hid : u_id u0 = sid) by (eapply Store.findById_id; exact E2);
      assert (Hsave : forall w, u_id w = u_id u ->
                 findById (save w d) (u_id u0) = Some u0)
        by (intros w Hw; rewrite Store.findById_save_other by congruence;
            rewrite Hid; exact E2)
  end.

(* ------------------------------------------------------------------ *)
(** ** [POST /buy-tokens]: the ledger *)

(** A successful purchase between two distinct accounts moves tokens
    without creating or destroying any: when user ids are unique, and
    bundle ids are unique within each document, the sum of
    [tokensRemaining] over all bundles of all documents is unchanged (the
    buyer gains exactly the tokens the listing loses; a depleted listing is
    removed holding 0). *)
Theorem buy_tokens_conserves_tokens d b sid tid amt newId res d' :
  b <> sid -> NoDup (map u_id d) ->
  (forall u, In u d -> NoDup (map t_id (temporaryTokens u))) ->
  buy_tokens d b sid tid amt newId = (inr res, d') ->
  total_tokens d' = total_tokens d.
Proof.
  intros Hne Hnd Hbnd H. buy_two_docs H Hne.
  all: cbn [temporaryTokens set_amount t_name set_remaining tokensRemaining] in E7, E8.
  all: apply Z.ltb_ge in E6.
  all: assert (Hsnd : NoDup (map t_id (temporaryTokens u0)))
         by (apply Hbnd; unfold findById in E2; apply find_some in E2; exact (proj1 E2)).
  all: rewrite (Ledger.total_tokens_save _ _ u0);
         [ | rewrite Ledger.map_u_id_save; exact Hnd | apply Hsave; reflexivity ].
  all: rewrite (Ledger.total_tokens_save d _ u);
         [ | exact Hnd | cbn [u_id set_tokens set_amount]; rewrite Hbid; exact E0 ].
  all: unfold tokens_of; cbn [temporaryTokens set_tokens set_amount].
  all: first
    [ apply Z.leb_le in E7;
      rewrite Ledger.bundle_sum_filter_zero;
      [ | intros x Hx Hxid;
          rewrite (Ledger.update_first_unique tid _ _ t x Hsnd E3 Hx Hxid);
          cbn [tokensRemaining set_remaining]; lia ]
    | idtac ].
  all: rewrite (Ledger.bundle_sum_update _ _ _ t E3); cbn [tokensRemaining set_remaining].
  all: first
    [ rewrite (Ledger.bundle_sum_update _ _ _ t0 E8); cbn [tokensRemaining set_remaining]; lia
    | rewrite Ledger.bundle_sum_snoc; cbn [tokensRemaining]; lia ].
Qed.

(** Witness: "B" (balance 10) buys 10 tokens of listing "L2" of "S". *)
Lemma buy_tokens_conserves_tokens_witness :
  let '(res, d') := buy_tokens Fixtures.market_db "B" "S" "L2" 10 "N" in
  total_tokens d' = total_tokens Fixtures.market_db.
Proof.
  destruct (buy_tokens Fixtures.market_db "B" "S" "L2" 10 "N") as [[e|ok] d'] eqn:E;
    [vm_compute in E; discriminate|].
  exact (buy_tokens_conserves_tokens Fixtures.market_db "B" "S" "L2" 10 "N" ok d'
           ltac:(discriminate)
           ltac:(vm_compute; constructor; [intros [Hx|[]]; discriminate | constructor; [intros []|constructor]])
           ltac:(intros u Hu; vm_compute in Hu;
                 destruct Hu as [<- | [<- | []]]; vm_compute; repeat constructor; intros [])
           E).
Defined.

(** Whatever the accounts, a successful purchase is of at least one token
    from a listing with a positive price: a listing priced at 0 or below
    can never be sold (a negative price gives a negative token count, a
    price of 0 an infinite one). *)
Theorem buy_tokens_positive_price d b sid tid amt newId res d' :
  buy_tokens d b sid tid amt newId = (inr res, d') ->
  exists seller token,
    findById d sid = Some seller /\
    find (tok_id_is tid) (temporaryTokens seller) = Some token /\
    (0 < pricePerToken token)%Q /\ 1 <= tokensReceived res.
Proof.
  intros H. buy_success H.
  all: assert (Hamt : (0 < amt)%Q)
         by (apply Qnot_le_lt; intros Hle; apply Qle_bool_iff in Hle;
             rewrite Hle, !orb_true_r in E; discriminate).
  all: assert (Hnz : ~ (pricePerToken t == 0)%Q)
         by (intros Hz; apply Qeq_bool_iff in Hz; congruence).
  all: apply Z.leb_gt in E5.
  all: exists u0, t; cbn [tokensReceived].
  all: split; [first [exact E2 | reflexivity]|].
  all: split; [first [exact E3 | reflexivity]|].
  all: split; [apply (Ledger.price_pos amt); [exact Hamt | exact Hnz | rewrite <- Hn; exact E5]
              | lia].
Qed.

(** Witness: the purchase of "L2" with 10 at price 1. *)
Lemma buy_tokens_positive_price_witness :
  exists res d', buy_tokens Fixtures.market_db "B" "S" "L2" 10 "N" = (inr res, d') /\
  exists seller token,
    findById Fixtures.market_db "S" = Some seller /\
    find (tok_id_is "L2") (temporaryTokens seller) = Some token /\
    (0 < pricePerToken token)%Q /\ 1 <= tokensReceived res.
Proof.
  destruct (buy_tokens Fixtures.market_db "B" "S" "L2" 10 "N") as [[e|ok] d'] eqn:E;
    [vm_compute in E; discriminate|].
  exists ok, d'. split; [reflexivity|].
  exact (buy_tokens_positive_price Fixtures.market_db "B" "S" "L2" 10 "N" ok d' E).
Defined.


(** A purchase writes only the buyer's and the seller's documents: every
    other document is as before, whatever the outcome. *)
Theorem buy_tokens_frame d b sid tid amt newId r d' x :
  x <> b -> x <> sid ->
  buy_tokens d b sid tid amt newId = (r, d') ->
  findById d' x = findById d x.
Proof.
  intros Hb Hs H. destruct r as [e|ok].
  - apply Purchase.buy_tokens_error_unchanged in H. now subst d'.
  - buy_success H.
    all: assert (Hbid : u_id u = b) by (eapply Store.findById_id; exact E0).
    all: assert (Hid : u_id u0 = sid) by (eapply Store.findById_id; exact E2).
    all: rewrite !Store.findById_save_other by (cbn [u_id set_tokens set_amount]; congruence).
    all: reflexivity.
Qed.

(** Witness: "X" is neither the buyer "B" nor the seller "S". *)
Lemma buy_tokens_frame_witness :
  let d := (mkUser "X" 5 [] [] :: Fixtures.market_db) in
  findById (snd (buy_tokens d "B" "S" "L2" 10 "N")) "X" = findById d "X".
Proof.
  cbv zeta.
  apply (buy_tokens_frame _ "B" "S" "L2" 10 "N"
           (fst (buy_tokens (mkUser "X" 5 [] [] :: Fixtures.market_db) "B" "S" "L2" 10 "N")));
    [discriminate | discriminate | apply surjective_pairing].
Defined.

(* ------------------------------------------------------------------ *)
(** ** [POST /chat]: what a request writes *)

Module ChatLedger.

Lemma prepare_user d uid message keyType keyId modelId p :
  chat_prepare d uid message keyType keyId modelId = inr p ->
  findById d uid = Some (p_user p) /\ p_keyId p = keyId /\ message <> ""%string.
Proof.
  unfold chat_prepare. intros H.
  destruct (String.eqb message "") eqn:Hm; [discriminate|].
  apply String.eqb_neq in Hm.
  split_tests H; try discriminate.
  all: injection H as <-; cbn [p_user p_keyId].
  all: split; [first [assumption | reflexivity] | split; [reflexivity | exact Hm]].
Qed.

Lemma prepare_user_key d uid message keyId modelId p :
  chat_prepare d uid message "user" keyId modelId = inr p ->
  exists k, p_source p = UserSource k /\ find (key_id_is keyId) (api_keys (p_user p)) = Some k.
Proof.
  unfold chat_prepare. intros H. split_tests H; try discriminate.
  injection H as <-. eexists. split; [reflexivity | assumption].
Qed.

Lemma prepare_temp_source d uid message keyId modelId p :
  chat_prepare d uid message "temp" keyId modelId = inr p ->
  exists t, p_source p = TempSource t.
Proof.
  unfold chat_prepare. intros H. split_tests H; try discriminate.
  injection H as <-. eexists. reflexivity.
Qed.

(** [chat_finish] leaves the database as it is or saves one document, a
    copy of the requester's. *)
Lemma finish_saves d p message reply :
  snd (chat_finish d p message reply) = d \/
  exists u', u_id u' = u_id (p_user p) /\ snd (chat_finish d p message reply) = save u' d.
Proof.
  unfold chat_finish. destruct reply as [r|]; [|left; reflexivity].
  destruct (p_source p) as [t|k]; cbv zeta.
  - destruct (_ >? _); [left; reflexivity|]. right.
    destruct (_ <=? 0).
    + eexists. split. 2: reflexivity. reflexivity.
    + eexists. split. 2: reflexivity. reflexivity.
  - destruct (_ <? _); [left; reflexivity|]. right.
    eexists. split. 2: reflexivity. reflexivity.
Qed.

Lemma finish_frame d p message reply x :
  x <> u_id (p_user p) ->
  findById (snd (chat_finish d p message reply)) x = findById d x.
Proof.
  intros Hx. destruct (finish_saves d p message reply) as [-> | (u' & Hu' & ->)];
    [reflexivity|].
  apply Store.findById_save_other. congruence.
Qed.

(** A successful request on an owned key: the key, as stored by the
    request, holds [available - tokensUsed], which is [>= 0]. *)
Lemma key_debit d uid message keyId modelId r ok d' :
  chat d uid message "user" keyId modelId (Some r) = (inr ok, d') ->
  exists u k u',
    findById d uid = Some u /\ find (key_id_is keyId) (api_keys u) = Some k /\
    findById d' uid = Some u' /\
    remainingTokens ok = available k - totalTokens (chat_usage ok) /\
    0 <= remainingTokens ok /\
    find (key_id_is keyId) (api_keys u') = Some (set_available k (remainingTokens ok)).
Proof.
  unfold chat. intros H.
  destruct (chat_prepare d uid message "user" keyId modelId) as [e|p] eqn:P; [discriminate|].
  destruct (prepare_user _ _ _ _ _ _ _ P) as (Hu & Hk & _).
  destruct (prepare_user_key _ _ _ _ _ _ P) as (k & Hs & Hf).
  unfold chat_finish in H. rewrite Hs in H. cbv zeta in H.
  destruct (available k <? _) eqn:G; [discriminate|].
  injection H as <- <-. apply Z.ltb_ge in G.
  exists (p_user p), k; eexists; cbn [remainingTokens chat_usage available set_available].
  split; [exact Hu|]. split; [exact Hf|].
  split; [eapply Purchase.findById_save_by_id;
      [exact Hu | exact (Store.findById_id _ _ _ Hu)]|].
  split; [reflexivity|]. split; [lia|].
  cbn [api_keys set_api_keys]. rewrite Hk.
  apply (Store.find_update_first _ _ _ k Hf). exact (Store.find_some_pred _ _ _ Hf).
Qed.

End ChatLedger.

(** A chat request writes at most the requester's own document, alone or
    with a concurrent twin: no other document changes. In particular,
    serving a purchased bundle never debits or otherwise modifies the
    seller's document or the seller's original key. *)
Theorem chat_frame d uid message keyType keyId modelId reply1 reply2 x :
  x <> uid ->
  findById (snd (chat d uid message keyType keyId modelId reply1)) x = findById d x /\
  findById (snd (chat_concurrent d uid message keyType keyId modelId reply1 reply2)) x
    = findById d x.
Proof.
  intros Hx. unfold chat, chat_concurrent.
  destruct (chat_prepare d uid message keyType keyId modelId) as [e|p] eqn:P;
    [split; reflexivity|].
  destruct (ChatLedger.prepare_user _ _ _ _ _ _ _ P) as (Hu & _ & _).
  assert (Hid : u_id (p_user p) = uid) by (eapply Store.findById_id; exact Hu).
  split; [apply ChatLedger.finish_frame; congruence|].
  destruct (chat_finish d p message reply1) as [res1 d1] eqn:F1.
  destruct (chat_finish d1 p message reply2) as [res2 d2] eqn:F2. cbn [snd].
  transitivity (findById d1 x).
  - change d2 with (snd (res2, d2)). rewrite <- F2.
    apply ChatLedger.finish_frame. congruence.
  - change d1 with (snd (res1, d1)). rewrite <- F1.
    apply ChatLedger.finish_frame. congruence.
Qed.

(** Witness: seller "S" is untouched by requests of "C" on bundle "T". *)
Lemma chat_frame_witness :
  findById (snd (chat Fixtures.holder_db "C" "hi" "temp" "T" "gpt-4"
                   (Some (Fixtures.reply_of 6)))) "S" = findById Fixtures.holder_db "S" /\
  findById (snd (chat_concurrent Fixtures.holder_db "C" "hi" "temp" "T" "gpt-4"
                   (Some (Fixtures.reply_of 6)) (Some (Fixtures.reply_of 6)))) "S"
    = findById Fixtures.holder_db "S".
Proof. apply chat_frame. discriminate. Defined.

(** A successful request on a purchased bundle debits it by exactly the
    metered usage, never below 0; the response reports the new count. The
    requester's document as saved holds the bundle with that count, or no
    bundle with that id when the count reached 0. *)
Theorem chat_debits_bundle d uid message keyId modelId r ok d' :
  chat d uid message "temp" keyId modelId (Some r) = (inr ok, d') ->
  exists u t u',
    findById d uid = Some u /\ find (tok_id_is keyId) (temporaryTokens u) = Some t /\
    findById d' uid = Some u' /\
    remainingTokens ok = tokensRemaining t - totalTokens (chat_usage ok) /\
    0 <= remainingTokens ok /\
    (remainingTokens ok = 0 -> forall t', In t' (temporaryTokens u') -> t_id t' <> keyId) /\
    (0 < remainingTokens ok ->
       find (tok_id_is keyId) (temporaryTokens u') = Some (set_remaining t (remainingTokens ok))).
Proof.
  unfold chat. intros H.
  destruct (chat_prepare d uid message "temp" keyId modelId) as [e|p] eqn:P; [discriminate|].
  destruct (ChatLedger.prepare_temp_source _ _ _ _ _ _ P) as (t & Hs).
  destruct (ChatFacts.prepare_temp _ _ _ _ _ _ _ P Hs) as (Hu & Hk & Hf).
  unfold chat_finish in H. rewrite Hs in H. cbv zeta in H.
  destruct (_ >? tokensRemaining t) eqn:G; [discriminate|].
  rewrite Z.gtb_ltb in G. apply Z.ltb_ge in G.
  cbn [set_remaining tokensRemaining] in H.
  destruct (tokensRemaining t - _ <=? 0) eqn:Z0;
    injection H as <- <-; cbn [remainingTokens chat_usage];
    exists (p_user p), t; eexists;
    (split; [exact Hu|]); (split; [exact Hf|]);
    (split; [eapply Purchase.findById_save_by_id;
      [exact Hu | exact (Store.findById_id _ _ _ Hu)]|]);
    (split; [reflexivity|]); (split; [lia|]).
  - apply Z.leb_le in Z0. split; [|intros ?; exfalso; lia].
    intros _ x Hx. cbn [temporaryTokens set_tokens] in Hx.
    apply Store.find_filter_neg in Hx. rewrite Hk in Hx.
    apply String.eqb_neq. exact Hx.
  - apply Z.leb_gt in Z0. split; [intros ?; exfalso; lia|]. intros _.
    cbn [temporaryTokens set_tokens]. rewrite Hk.
    apply (Store.find_update_first _ _ _ t Hf). exact (Store.find_some_pred _ _ _ Hf).
Qed.

(** Witness: "C" uses 6 of the 10 tokens of bundle "T". *)
Lemma chat_debits_bundle_witness :
  exists ok d', chat Fixtures.holder_db "C" "hi" "temp" "T" "gpt-4"
                  (Some (Fixtures.reply_of 6)) = (inr ok, d') /\
  exists u t u',
    findById Fixtures.holder_db "C" = Some u /\
    find (tok_id_is "T") (temporaryTokens u) = Some t /\
    findById d' "C" = Some u' /\
    remainingTokens ok = tokensRemaining t - totalTokens (chat_usage ok) /\
    0 <= remainingTokens ok /\
    (remainingTokens ok = 0 -> forall t', In t' (temporaryTokens u') -> t_id t' <> "T"%string) /\
    (0 < remainingTokens ok ->
       find (tok_id_is "T") (temporaryTokens u') = Some (set_remaining t (remainingTokens ok))).
Proof.
  destruct (chat Fixtures.holder_db "C" "hi" "temp" "T" "gpt-4" (Some (Fixtures.reply_of 6)))
    as [[e|ok] d'] eqn:E; [vm_compute in E; discriminate|].
  exists ok, d'. split; [reflexivity|].
  exact (chat_debits_bundle _ _ _ _ _ _ ok d' E).
Defined.

(** A successful request on an owned key debits its [available] counter
    by exactly the metered usage, never below 0, in the requester's
    document as saved; the response reports the new count. *)
Theorem chat_debits_key d uid message keyId modelId r ok d' :
  chat d uid message "user" keyId modelId (Some r) = (inr ok, d') ->
  exists u k u',
    findById d uid = Some u /\ find (key_id_is keyId) (api_keys u) = Some k /\
    findById d' uid = Some u' /\
    find (key_id_is keyId) (api_keys u') = Some (set_available k (remainingTokens ok)) /\
    remainingTokens ok = available k - totalTokens (chat_usage ok) /\
    0 <= remainingTokens ok.
Proof.
  intros H.
  destruct (ChatLedger.key_debit _ _ _ _ _ _ _ _ H) as (u & k & u' & H1 & H2 & H3 & H4 & H5 & H6).
  exists u, k, u'. repeat split; assumption.
Qed.

(** Two successive (not concurrent) successful requests on one owned key
    compose: the key ends at [available] less both metered usages. *)
Theorem chat_sequential_key d uid m1 m2 keyId mid1 mid2 r1 r2 ok1 ok2 d1 d2 :
  chat d uid m1 "user" keyId mid1 (Some r1) = (inr ok1, d1) ->
  chat d1 uid m2 "user" keyId mid2 (Some r2) = (inr ok2, d2) ->
  exists u k u2,
    findById d uid = Some u /\ find (key_id_is keyId) (api_keys u) = Some k /\
    findById d2 uid = Some u2 /\
    remainingTokens ok2
      = available k - totalTokens (chat_usage ok1) - totalTokens (chat_usage ok2) /\
    find (key_id_is keyId) (api_keys u2) = Some (set_available k (remainingTokens ok2)).
Proof.
  intros H1 H2.
  destruct (ChatLedger.key_debit _ _ _ _ _ _ _ _ H1) as (u & k & u1 & Hu & Hk & Hu1 & Hr1 & _ & Hk1).
  destruct (ChatLedger.key_debit _ _ _ _ _ _ _ _ H2) as (v & k' & u2 & Hv & Hk' & Hu2 & Hr2 & _ & Hk2).
  rewrite Hu1 in Hv. injection Hv as <-. rewrite Hk1 in Hk'. injection Hk' as <-.
  exists u, k, u2. cbn [available set_available] in Hr2.
  split; [exact Hu|]. split; [exact Hk|]. split; [exact Hu2|]. split; [lia|].
  rewrite Hk2. reflexivity.
Qed.

(** Witness: user "S" makes two requests on its key "K1" (1000 tokens),
    metered at 6 and 4. *)
Lemma chat_sequential_key_witness :
  exists ok1 ok2 d1 d2,
    chat Fixtures.holder_db "S" "hi" "user" "K1" "gpt-4" (Some (Fixtures.reply_of 6))
      = (inr ok1, d1) /\
    chat d1 "S" "hi" "user" "K1" "gpt-4" (Some (Fixtures.reply_of 4)) = (inr ok2, d2) /\
    exists u k u2,
      findById Fixtures.holder_db "S" = Some u /\ find (key_id_is "K1") (api_keys u) = Some k /\
      findById d2 "S" = Some u2 /\
      remainingTokens ok2
        = available k - totalTokens (chat_usage ok1) - totalTokens (chat_usage ok2) /\
      find (key_id_is "K1") (api_keys u2) = Some (set_available k (remainingTokens ok2)).
Proof.
  destruct (chat Fixtures.holder_db "S" "hi" "user" "K1" "gpt-4" (Some (Fixtures.reply_of 6)))
    as [[e1|ok1] d1] eqn:E1; [vm_compute in E1; discriminate|].
  destruct (chat d1 "S" "hi" "user" "K1" "gpt-4" (Some (Fixtures.reply_of 4)))
    as [[e2|ok2] d2] eqn:E2;
    [vm_compute in E1; injection E1 as _ <-; vm_compute in E2; discriminate|].
  exists ok1, ok2, d1, d2. split; [reflexivity|]. split; [exact E2|].
  exact (chat_sequential_key _ _ _ _ _ _ _ _ _ _ _ _ d2 E1 E2).
Defined.

(** Witness: user "S" uses 6 of the 1000 tokens of its key "K1". *)
Lemma chat_debits_key_witness :
  exists ok d', chat Fixtures.holder_db "S" "hi" "user" "K1" "gpt-4"
                  (Some (Fixtures.reply_of 6)) = (inr ok, d') /\
  exists u k u',
    findById Fixtures.holder_db "S" = Some u /\ find (key_id_is "K1") (api_keys u) = Some k /\
    findById d' "S" = Some u' /\
    find (key_id_is "K1") (api_keys u') = Some (set_available k (remainingTokens ok)) /\
    remainingTokens ok = available k - totalTokens (chat_usage ok) /\
    0 <= remainingTokens ok.
Proof.
  destruct (chat Fixtures.holder_db "S" "hi" "user" "K1" "gpt-4" (Some (Fixtures.reply_of 6)))
    as [[e|ok] d'] eqn:E; [vm_compute in E; discriminate|].
  exists ok, d'. split; [reflexivity|].
  exact (chat_debits_key _ _ _ _ _ _ ok d' E).
Defined.

(** With an Anthropic or Gemini key the usage is estimated from the text,
    and the route accepts only non-empty messages: every request that
    reaches the upstream call is metered at least one token. *)
Theorem chat_estimated_usage_positive d uid message keyType keyId modelId p r :
  chat_prepare d uid message keyType keyId modelId = inr p ->
  p_provider p <> openai ->
  1 <= totalTokens (resp_usage (handleProviderRequest (p_provider p) message r)).
Proof.
  intros P Hp. destruct (ChatLedger.prepare_user _ _ _ _ _ _ _ P) as (_ & _ & Hm).
  assert (Hlen : (1 <= String.length message)%nat)
    by (destruct message; [contradiction | simpl; lia]).
  destruct (p_provider p); [contradiction | |]; cbn; rewrite !ceil_div4_eq;
    Z.div_mod_to_equations; lia.
Qed.

(** Witness: an Anthropic key "K2" ("claude key") with a 2-character
    message. *)
Lemma chat_estimated_usage_positive_witness :
  let d := [mkUser "A" 0 [mkApiKey "K2" "claude key" "enc:K2" 100] []] in
  exists p, chat_prepare d "A" "hi" "user" "K2" "claude-3-haiku-20240307" = inr p /\
  1 <= totalTokens (resp_usage (handleProviderRequest (p_provider p) "hi" (mkReply "" 0 0 0))).
Proof.
  cbv zeta.
  destruct (chat_prepare [mkUser "A" 0 [mkApiKey "K2" "claude key" "enc:K2" 100] []]
              "A" "hi" "user" "K2" "claude-3-haiku-20240307") as [e|p] eqn:E;
    [vm_compute in E; discriminate|].
  exists p. split; [reflexivity|].
  apply (chat_estimated_usage_positive _ _ _ _ _ _ p _ E).
  vm_compute in E. injection E as <-. discriminate.
Defined.

(** For an owned key both routes infer the provider from the key's [name]:
    the models [/available-models] lists for it are those of the provider
    [/chat] calls with it. *)
Theorem available_models_user_agrees d uid message keyId modelId ms pr :
  available_models d uid "user" keyId = inr ms ->
  chat_prepare d uid message "user" keyId modelId = inr pr ->
  ms = models_of (p_provider pr).
Proof.
  unfold available_models, chat_prepare. intros H P.
  destruct (String.eqb keyId "") eqn:Hk; [discriminate|].
  cbn [orb String.eqb] in H.
  destruct (findById d uid) as [u|]; [|discriminate].
  destruct (find (key_id_is keyId) (api_keys u)) as [k|]; [|discriminate].
  destruct (getProviderFromModel (k_name k)) as [p|]; [|discriminate].
  injection H as <-.
  destruct (_ || _ || _ || _)%bool; [discriminate|].
  cbn [String.eqb] in P. injection P as <-. reflexivity.
Qed.

(** Witness: key "K1" ("gpt-4 key") of user "S". *)
Lemma available_models_user_agrees_witness :
  exists ms pr,
    available_models Fixtures.holder_db "S" "user" "K1" = inr ms /\
    chat_prepare Fixtures.holder_db "S" "hi" "user" "K1" "gpt-4" = inr pr /\
    ms = models_of (p_provider pr).
Proof.
  destruct (available_models Fixtures.holder_db "S" "user" "K1") as [e|ms] eqn:E1;
    [vm_compute in E1; discriminate|].
  destruct (chat_prepare Fixtures.holder_db "S" "hi" "user" "K1" "gpt-4") as [e|pr] eqn:E2;
    [vm_compute in E2; discriminate|].
  exists ms, pr. split; [reflexivity|]. split; [reflexivity|].
  exact (available_models_user_agrees _ _ _ _ _ ms pr E1 E2).
Defined.

Module Case.

Lemma lower_char_idem c : Str.lower_char (Str.lower_char c) = Str.lower_char c.
Proof.
  destruct c as [[] [] [] [] [] [] [] []]; vm_compute; reflexivity.
Qed.

Lemma toLowerCase_idem s : Str.toLowerCase (Str.toLowerCase s) = Str.toLowerCase s.
Proof. induction s as [|c s IH]; simpl; [reflexivity|]. now rewrite lower_char_idem, IH. Qed.

End Case.

(** Provider inference ignores letter case: a model name and its
    lower-cased form name the same provider (or both none). *)
Theorem getProviderFromModel_case_insensitive s :
  getProviderFromModel (Str.toLowerCase s) = getProviderFromModel s.
Proof. unfold getProviderFromModel. now rewrite Case.toLowerCase_idem. Qed.

(** Witness: the models listed for key "K1" ("gpt-4 key") of user "S". *)
Lemma available_models_sound_witness :
  exists ms, available_models Fixtures.holder_db "S" "user" "K1" = inr ms /\
  exists u name p,
    findById Fixtures.holder_db "S" = Some u /\
    (("user"%string = "temp"%string /\
        exists t, find (tok_id_is "K1") (temporaryTokens u) = Some t /\ name = t_name t) \/
     ("user"%string = "user"%string /\
        exists k, find (key_id_is "K1") (api_keys u) = Some k /\ name = k_name k)) /\
    getProviderFromModel name = Some p /\ ms = models_of p /\ ms <> [] /\
    Forall (fun m => getProviderFromModel (model_id m) = Some p) ms.
Proof.
  destruct (available_models Fixtures.holder_db "S" "user" "K1") as [e|ms] eqn:E;
    [vm_compute in E; discriminate|].
  exists ms. split; [reflexivity|].
  exact (available_models_sound _ _ _ _ ms E).
Defined.
